(** * Gunshot monitor: capture, metering, detection loop and persistence

    A shallow embedding of [main.py] (the recorder, the level meter, the
    monitoring loop and the WAV writer), of [pretrained_detector.py]
    (the classifier wrapper) and of the recording test of [mic_test.py],
    with the properties the specification states about them.

    Conventions of the embedding.
    - A sample is the 32-bit pattern of an IEEE binary32 number
      (sounddevice delivers [float32] blocks by default), kept as a [Z].
      A frame is the list of the samples of one instant, one per channel;
      a block, a buffer and a window are lists of frames.
    - The value of a float is [NaN], an infinity or a number.  Numbers the
      code only adds, multiplies and compares are rationals (every finite
      float is one); the root of a rational is kept as its radicand, so
      that comparing it stays a computation; what comes out of [log10] is
      a real.  Arithmetic is exact: rounding is not modelled, NaN and the
      infinities propagate as IEEE 754 prescribes.
    - Python code that raises runs in a state-and-error monad over the
      [World]: the PortAudio streams, the recorder object, the module
      globals, the file system and the console/log output.
    - What the audio driver does during a call (refuse to open, refuse to
      start, deliver blocks, be interrupted) is an explicit argument.
    - The file system is the set of its directories and the map of its
      files, both keyed by the shortest path from the working directory
      (or from the root); [os.makedirs] and [open] follow a path name by
      name and fail as POSIX does on what stands in the way.  Links,
      permissions and quotas are not modelled. *)

From Stdlib Require Import ZArith QArith Qabs Qreals Reals Lra Lia List String Ascii.
From stdpp Require Import base gmap sets list strings.
Import ListNotations.

Set Default Proof Using "Type".

(* ===================================================================== *)
(** * Floating-point values *)
(* ===================================================================== *)

Inductive pyfloat (F : Type) : Type :=
| NaN
| Inf (neg : bool)
| Fin (x : F).
Arguments NaN {F}.
Arguments Inf {F} neg.
Arguments Fin {F} x.

(** The strict order of the carrier, as a test. *)
Class Ltb (F : Type) := ltb : F -> F -> bool.

#[export] Instance Q_ltb : Ltb Q := fun x y => negb (Qle_bool y x).
#[export] Instance R_ltb : Ltb R := fun x y => if Rlt_dec x y then true else false.

(** [a < b] on floats: false as soon as one side is NaN. *)
Definition flt {F} `{Ltb F} (a b : pyfloat F) : bool :=
  match a, b with
  | NaN, _ | _, NaN => false
  | Inf true, Inf true => false
  | Inf true, _ => true
  | _, Inf true => false
  | Inf false, _ => false
  | Fin _, Inf false => true
  | Fin x, Fin y => ltb x y
  end.

(** [a > b]. *)
Definition fgt {F} `{Ltb F} (a b : pyfloat F) : bool := flt b a.

(** Python's [min(a, b)] and [max(a, b)] on two arguments: the first one
    is kept unless the second is strictly smaller (resp. greater). *)
Definition py_min {F} `{Ltb F} (a b : pyfloat F) : pyfloat F :=
  if flt b a then b else a.
Definition py_max {F} `{Ltb F} (a b : pyfloat F) : pyfloat F :=
  if fgt b a then b else a.

(** ** Rational floats: what numpy does to the samples *)

Abbreviation qfloat := (pyfloat Q).
Abbreviation rfloat := (pyfloat R).

Definition sample := Z.
Definition frame := list sample.

(** The value of a binary32 bit pattern: sign bit 31, exponent bits 30..23,
    fraction bits 22..0. *)
Definition f32_value (w : sample) : qfloat :=
  let s := Z.testbit w 31 in
  let e := Z.land (Z.shiftr w 23) 255 in
  let m := Z.land w (2 ^ 23 - 1) in
  let sign := if s then (-1)%Z else 1%Z in
  if (e =? 255)%Z then (if (m =? 0)%Z then Inf s else NaN)
  else if (e =? 0)%Z then Fin (inject_Z (sign * m) * Qpower 2 (-149))%Q
  else Fin (inject_Z (sign * (2 ^ 23 + m)) * Qpower 2 (e - 150))%Q.

Definition fsquare (a : qfloat) : qfloat :=
  match a with
  | NaN => NaN
  | Inf _ => Inf false
  | Fin x => Fin (x * x)%Q
  end.

Definition fadd (a b : qfloat) : qfloat :=
  match a, b with
  | NaN, _ | _, NaN => NaN
  | Inf s, Inf t => if Bool.eqb s t then Inf s else NaN
  | Inf s, Fin _ | Fin _, Inf s => Inf s
  | Fin x, Fin y => Fin (x + y)%Q
  end.

Definition fabs (a : qfloat) : qfloat :=
  match a with
  | NaN => NaN
  | Inf _ => Inf false
  | Fin x => Fin (Qabs x)
  end.

Definition q_is_zero (x : Q) : bool := Qeq_bool x 0%Q.

(** [a / b]. *)
Definition fdiv (a b : qfloat) : qfloat :=
  match a, b with
  | NaN, _ | _, NaN => NaN
  | Inf _, Inf _ => NaN
  | Inf s, Fin y => Inf (xorb s (ltb y 0%Q))
  | Fin _, Inf _ => Fin 0%Q
  | Fin x, Fin y =>
      if q_is_zero y
      then (if q_is_zero x then NaN else Inf (ltb x 0%Q))
      else Fin (x / y)%Q
  end.

(** [np.square], [np.abs] and [np.mean] over every element of the array. *)
Definition np_values (a : list frame) : list qfloat :=
  map f32_value (concat a).

Definition np_square (a : list qfloat) : list qfloat := map fsquare a.
Definition np_abs (a : list qfloat) : list qfloat := map fabs a.

Definition np_sum (a : list qfloat) : qfloat := fold_left fadd a (Fin 0%Q).

(** The mean of an array without elements is NaN. *)
Definition np_mean (a : list qfloat) : qfloat :=
  match a with
  | [] => NaN
  | _ => fdiv (np_sum a) (Fin (inject_Z (Z.of_nat (length a))))
  end.

(** ** Roots and reals: what comes out of [sqrt] and [log10] *)

(** The number [sqrt radicand], for a radicand that is not negative. *)
Record root : Type := Root { radicand : Q }.

Definition root_value (x : root) : R := sqrt (Q2R (radicand x)).

(** Roots of non-negative numbers compare as their radicands do. *)
#[export] Instance root_ltb : Ltb root :=
  fun x y => ltb (radicand x) (radicand y).

Abbreviation sfloat := (pyfloat root).

Definition np_sqrt (a : qfloat) : sfloat :=
  match a with
  | NaN => NaN
  | Inf true => NaN
  | Inf false => Inf false
  | Fin x => if ltb x 0%Q then NaN else Fin (Root x)
  end.

Definition fscale (k : R) (a : rfloat) : rfloat :=
  match a with
  | NaN => NaN
  | Inf s => Inf s
  | Fin x => Fin (k * x)%R
  end.

(* ===================================================================== *)
(** * Exceptions and the two monads *)
(* ===================================================================== *)

(** Subclasses of Python's [Exception], each with its message. *)
Inductive exception : Type :=
| RuntimeError (msg : string)
| ValueError (msg : string)
| IndexError (msg : string)
| PortAudioError (msg : string)
| OSError (msg : string)
| FileExistsError (msg : string)       (* the four that follow are *)
| FileNotFoundError (msg : string)     (* subclasses of [OSError]  *)
| IsADirectoryError (msg : string)
| NotADirectoryError (msg : string).

Definition str (e : exception) : string :=
  match e with
  | RuntimeError m | ValueError m | IndexError m
  | PortAudioError m | OSError m
  | FileExistsError m | FileNotFoundError m
  | IsADirectoryError m | NotADirectoryError m => m
  end.

(** The line feed that opens some of the messages. *)
Definition LF : ascii := "010"%char.

(** What a [raise] carries: an [Exception], or [KeyboardInterrupt], which
    [except Exception] does not catch. *)
Inductive raised : Type :=
| Exc (e : exception)
| KeyboardInterrupt.

Inductive result (A : Type) : Type :=
| Ok (a : A)
| Raise (r : raised).
Arguments Ok {A} a.
Arguments Raise {A} r.

Class Monad (T : Type -> Type) : Type := {
  ret : forall {A}, A -> T A;
  bind : forall {A B}, T A -> (A -> T B) -> T B
}.

Declare Scope py_scope.
Delimit Scope py_scope with py.
Notation "x <- c1 ;; c2" := (bind c1 (fun x => c2))
  (at level 100, c1 at next level, right associativity) : py_scope.
Notation "c1 ;; c2" := (bind c1 (fun _ => c2))
  (at level 100, right associativity) : py_scope.
Open Scope py_scope.

#[export] Instance result_Monad : Monad result := {
  ret := fun A a => Ok a;
  bind := fun A B m k => match m with Ok a => k a | Raise r => Raise r end
}.

(** ** The world *)

Inductive stream_status : Type :=
| Stopped   (* open, not running *)
| Active    (* open and running: the callback fires *)
| Closed.

(** A [sounddevice.InputStream], as PortAudio opened it. *)
Record InputStream : Type := {
  samplerate : Z;
  channels : Z;
  blocksize : Z;
  status : stream_status
}.

Record AudioRecorder : Type := {
  stream : option nat;           (* handle into [streams], or [None] *)
  audio_buffer : list frame;
  is_recording : bool;
  current_db : rfloat
}.

Definition byte := Z.

(** A file written through Python's [wave] module. *)
Record WavFile : Type := {
  wav_nchannels : Z;
  wav_sampwidth : Z;             (* bytes per sample *)
  wav_framerate : Z;
  wav_data : list byte
}.

Record FileSystem : Type := {
  dirs : gset string;
  files : gmap string WavFile
}.

Inductive level : Type := INFO | WARNING | ERROR.

(** What reaches the console, the log (level INFO and above: [debug]
    messages are not emitted) and the clock.  Numbers formatted into a
    message are kept as a separate argument. *)
Inductive event : Type :=
| Log (lvl : level) (msg : string)
| LogProbability (msg : string) (p : qfloat) (rest : string)
| Print (msg : string)
| PrintProbability (p : qfloat)
| VuMeter (db : rfloat)
| SdSleep (ms : Z).

Record World : Type := {
  streams : list InputStream;
  recorder : AudioRecorder;
  LOCAL_SAMPLE_RATE : option Z;  (* the global [__init__] creates *)
  fs : FileSystem;
  output : list event
}.

Definition set_streams (f : list InputStream -> list InputStream) (w : World) : World :=
  {| streams := f (streams w); recorder := recorder w;
     LOCAL_SAMPLE_RATE := LOCAL_SAMPLE_RATE w; fs := fs w; output := output w |}.
Definition set_recorder (f : AudioRecorder -> AudioRecorder) (w : World) : World :=
  {| streams := streams w; recorder := f (recorder w);
     LOCAL_SAMPLE_RATE := LOCAL_SAMPLE_RATE w; fs := fs w; output := output w |}.
Definition set_LOCAL_SAMPLE_RATE (v : option Z) (w : World) : World :=
  {| streams := streams w; recorder := recorder w;
     LOCAL_SAMPLE_RATE := v; fs := fs w; output := output w |}.
Definition set_fs (f : FileSystem -> FileSystem) (w : World) : World :=
  {| streams := streams w; recorder := recorder w;
     LOCAL_SAMPLE_RATE := LOCAL_SAMPLE_RATE w; fs := f (fs w); output := output w |}.
Definition emit (e : event) (w : World) : World :=
  {| streams := streams w; recorder := recorder w;
     LOCAL_SAMPLE_RATE := LOCAL_SAMPLE_RATE w; fs := fs w;
     output := output w ++ [e] |}.

Definition set_stream (v : option nat) (r : AudioRecorder) : AudioRecorder :=
  {| stream := v; audio_buffer := audio_buffer r;
     is_recording := is_recording r; current_db := current_db r |}.
Definition set_audio_buffer (v : list frame) (r : AudioRecorder) : AudioRecorder :=
  {| stream := stream r; audio_buffer := v;
     is_recording := is_recording r; current_db := current_db r |}.
Definition set_is_recording (v : bool) (r : AudioRecorder) : AudioRecorder :=
  {| stream := stream r; audio_buffer := audio_buffer r;
     is_recording := v; current_db := current_db r |}.
Definition set_current_db (v : rfloat) (r : AudioRecorder) : AudioRecorder :=
  {| stream := stream r; audio_buffer := audio_buffer r;
     is_recording := is_recording r; current_db := v |}.

Definition set_status (v : stream_status) (s : InputStream) : InputStream :=
  {| samplerate := samplerate s; channels := channels s;
     blocksize := blocksize s; status := v |}.

(** ** Python statements over the world *)

Definition M (A : Type) : Type := World -> World * result A.

#[export] Instance M_Monad : Monad M := {
  ret := fun A a w => (w, Ok a);
  bind := fun A B m k w =>
    match m w with
    | (w', Ok a) => k a w'
    | (w', Raise r) => (w', Raise r)
    end
}.

Definition lift {A} (r : result A) : M A := fun w => (w, r).
(** A call into a library that ends with a value or with an [Exception]. *)
Definition call {A} (r : exception + A) : M A :=
  fun w => match r with inl e => (w, Raise (Exc e)) | inr a => (w, Ok a) end.
Definition raise {A} (e : exception) : M A := fun w => (w, Raise (Exc e)).
Definition get {A} (f : World -> A) : M A := fun w => (w, Ok (f w)).
Definition modify (f : World -> World) : M unit := fun w => (f w, Ok tt).
Definition self {A} (f : AudioRecorder -> A) : M A := get (fun w => f (recorder w)).
Definition self_set (f : AudioRecorder -> AudioRecorder) : M unit :=
  modify (set_recorder f).
Definition say (e : event) : M unit := modify (emit e).

(** [try: body except Exception as e: handler e].  The handler runs in the
    state the body left; [KeyboardInterrupt] passes through. *)
Definition try_except {A} (body : M A) (handler : exception -> M A) : M A :=
  fun w =>
    match body w with
    | (w', Raise (Exc e)) => handler e w'
    | other => other
    end.

(** [try: body finally: final].  The final block always runs; when it
    raises, its exception replaces the outcome of the body. *)
Definition try_finally {A} (body : M A) (final : M unit) : M A :=
  fun w =>
    let '(w1, r) := body w in
    match final w1 with
    | (w2, Ok _) => (w2, r)
    | (w2, Raise r') => (w2, Raise r')
    end.

(** [with cm: body], for a context manager whose [__exit__] returns
    [None]: when [__enter__] raises, neither the body nor [__exit__] runs;
    otherwise [__exit__] runs however the body ends. *)
Definition with_ {A} (enter : M unit) (exit : M unit) (body : M A) : M A :=
  enter ;; try_finally body exit.

(** [for x in l: f x]. *)
Fixpoint for_each {A} (l : list A) (f : A -> M unit) : M unit :=
  match l with
  | [] => ret tt
  | x :: l' => f x ;; for_each l' f
  end.

(* ===================================================================== *)
(** * main.py: configuration and the level meter *)
(* ===================================================================== *)

Definition SAMPLE_RATE : Z := 44100.
Definition DURATION : Z := 5.
Definition CHANNELS : Z := 1.
Definition SAVE_PATH : string := "recordings/".
Definition DB_MIN : rfloat := Fin (-60)%R.
Definition DB_MAX : rfloat := Fin 0%R.

(** [math.log10]: a domain error below or at zero. *)
Definition math_log10 (x : sfloat) : result rfloat :=
  match x with
  | NaN => Ok NaN
  | Inf false => Ok (Inf false)
  | Inf true => Raise (Exc (ValueError "math domain error"))
  | Fin r =>
      if ltb (Root 0) r then Ok (Fin (ln (root_value r) / ln 10)%R)
      else Raise (Exc (ValueError "math domain error"))
  end.

(** [AudioRecorder.calculate_db]. *)
Definition calculate_db (audio_data : list frame) : result rfloat :=
  if (length audio_data =? 0)%nat then Ok DB_MIN
  else
    let rms := np_sqrt (np_mean (np_square (np_values audio_data))) in
    db <- (if fgt rms (Fin (Root 0))
           then l <- math_log10 rms ;; Ok (fscale 20 l)
           else Ok DB_MIN) ;;
    Ok (py_max (py_min db DB_MAX) DB_MIN).

(** [AudioRecorder.draw_vu_meter] prints one gauge line for [db]; the text
    of the line is not modelled, only that it is written. *)
Definition draw_vu_meter (db : rfloat) : M unit := say (VuMeter db).

(* ===================================================================== *)
(** * sounddevice, as the recorder uses it *)
(* ===================================================================== *)

(** One callback invocation: the block and the text of its status flags
    (empty when no flag is set). *)
Definition block : Type := list frame * string.

(** What the audio driver does during one call of [record], and during
    the pause the loop takes when the pass has failed. *)
Record Driver : Type := {
  stray_blocks : list block;     (* delivered by a stream an earlier call
                                    left running, before it is stopped *)
  open_error : option raised;    (* [sd.InputStream(...)] raises *)
  start_error : option raised;   (* [stream.start()] raises *)
  blocks : list block;           (* delivered while [sd.sleep] runs *)
  sleep_error : option raised;   (* [sd.sleep] is cut short *)
  stop_error : option raised;    (* [stream.stop()] raises *)
  pause_interrupted : bool       (* Ctrl+C cuts the [sd.sleep] of the
                                    loop's handler short *)
}.

Definition fail_with (r : option raised) : M unit :=
  fun w => match r with Some x => (w, Raise x) | None => (w, Ok tt) end.

Definition is_active (s : InputStream) : bool :=
  match status s with Active => true | _ => false end.

(** [sd.InputStream(...)]: a new stream, open and not started. *)
Definition sd_InputStream (d : Driver) (rate chans bsize : Z) : M nat :=
  fail_with (open_error d) ;;
  h <- get (fun w => length (streams w)) ;;
  modify (set_streams (fun l =>
    l ++ [ {| samplerate := rate; channels := chans;
              blocksize := bsize; status := Stopped |} ])) ;;
  ret h.

(** [s is not None and s.active]; a closed stream is not active. *)
Definition stream_active (s : option nat) : M bool :=
  get (fun w =>
    match s with
    | Some h => match streams w !! h with Some x => is_active x | None => false end
    | None => false
    end).

Definition stream_set (s : option nat) (v : stream_status) : M unit :=
  match s with
  | Some h => modify (set_streams (alter (set_status v) h))
  | None => raise (RuntimeError "no stream")
  end.

Definition stream_start (d : Driver) (s : option nat) : M unit :=
  fail_with (start_error d) ;; stream_set s Active.
Definition stream_stop (d : Driver) (s : option nat) : M unit :=
  fail_with (stop_error d) ;; stream_set s Stopped.
Definition stream_close (s : option nat) : M unit :=
  stream_set s Closed.

(** [int(x)] on a number: truncation towards zero. *)
Definition py_int (x : Q) : Z := Z.quot (Qnum x) (Zpos (Qden x)).

(* ===================================================================== *)
(** * main.py: the recorder *)
(* ===================================================================== *)

(** [AudioRecorder._audio_callback]. *)
Definition _audio_callback (indata : list frame) (status : string) : M unit :=
  (if negb (String.eqb status "")
   then say (Log WARNING ("Status: " +:+ status)) else ret tt) ;;
  recording <- self is_recording ;;
  if recording then
    self_set (fun r => set_audio_buffer (audio_buffer r ++ indata) r) ;;
    db <- lift (calculate_db indata) ;;
    self_set (set_current_db db) ;;
    draw_vu_meter db
  else ret tt.

(** The driver thread: while some stream runs, it calls the callback once
    per block. *)
Definition fire (bs : list block) : M unit :=
  running <- get (fun w => existsb is_active (streams w)) ;;
  if running then for_each bs (fun b => _audio_callback (fst b) (snd b))
  else ret tt.

(** [sd.sleep(ms)]: the caller waits, the driver thread works. *)
Definition sd_sleep (bs : list block) (err : option raised) (ms : Z) : M unit :=
  say (SdSleep ms) ;; fire bs ;; fail_with err.

(** [AudioRecorder._initialize_stream]. *)
Definition _initialize_stream (d : Driver) : M bool :=
  try_except
    (s <- self stream ;;
     active <- stream_active s ;;
     (if active then stream_stop d s ;; stream_close s else ret tt) ;;
     h <- sd_InputStream d SAMPLE_RATE CHANNELS
            (py_int (inject_Z SAMPLE_RATE * (1 # 10))) ;;
     self_set (set_stream (Some h)) ;;
     ret true)
    (fun e =>
       say (Log ERROR ("Error initializing audio stream: " +:+ str e)) ;;
       ret false).

(** [AudioRecorder.record].  The driver's stray blocks arrive after the
    two resets of lines 131-132 and before the old stream is stopped. *)
Definition record (d : Driver) (duration : Z) : M (list frame) :=
  self_set (set_audio_buffer []) ;;
  self_set (set_is_recording false) ;;
  fire (stray_blocks d) ;;
  ok <- _initialize_stream d ;;
  (if negb ok then raise (RuntimeError "Failed to initialize audio stream")
   else ret tt) ;;
  try_finally
    (try_except
       (self_set (set_is_recording true) ;;
        s <- self stream ;;
        with_ (stream_start d s) (stream_stop d s ;; stream_close s)
          (say (Print (String LF "Recording... (Press Ctrl+C to stop)")) ;;
           say (Print "VU Meter:") ;;
           sd_sleep (blocks d) (sleep_error d) (duration * 1000)))
       (fun e =>
          say (Log ERROR ("Error during recording: " +:+ str e)) ;;
          raise e))
    (self_set (set_is_recording false) ;;
     s <- self stream ;;
     active <- stream_active s ;;
     (if active then stream_stop d s ;; stream_close s else ret tt) ;;
     say (Print "")) ;;
  self audio_buffer.

(** ** Persistence *)

(** [ndarray.tobytes()] of a float32 array: four bytes per sample, least
    significant first. *)
Definition f32_bytes (w : sample) : list byte :=
  [ Z.land w 255; Z.land (Z.shiftr w 8) 255;
    Z.land (Z.shiftr w 16) 255; Z.land (Z.shiftr w 24) 255 ].

Definition tobytes (a : list frame) : list byte :=
  concat (map f32_bytes (concat a)).

(** The frame count a reader of the file finds ([Wave_read.getnframes]):
    the size of the data chunk over the size of one frame. *)
Definition wav_nframes (f : WavFile) : Z :=
  Z.of_nat (length (wav_data f)) / (wav_nchannels f * wav_sampwidth f).

(** *** Paths and what stands at them *)

Definition ends_with_slash (p : string) : bool :=
  match rev (list_ascii_of_string p) with
  | c :: _ => Ascii.eqb c "/"
  | [] => false
  end.

Definition os_path_join (p q : string) : string :=
  if String.prefix "/" q then q
  else if ends_with_slash p then p +:+ q
  else p +:+ "/" +:+ q.

(** The components of a path, between its slashes. *)
Fixpoint split_path (p : string) : list string :=
  match p with
  | EmptyString => [EmptyString]
  | String c p' =>
      if Ascii.eqb c "/" then EmptyString :: split_path p'
      else match split_path p' with
           | x :: l => String c x :: l
           | [] => [String c EmptyString]
           end
  end.

(** A place in the tree is the list of names that lead to it, from the
    root for an absolute path, from the working directory otherwise; there
    a place above the working directory is a list of [..].  The key of a
    place in [dirs] and [files] is its shortest path. *)
Definition climbs (loc : list string) : bool := forallb (String.eqb "..") loc.

Definition parent (absolute : bool) (loc : list string) : list string :=
  if climbs loc then (if absolute then [] else loc ++ [".."])
  else removelast loc.

Fixpoint join_path (loc : list string) : string :=
  match loc with
  | [] => ""
  | [x] => x
  | x :: l => x +:+ "/" +:+ join_path l
  end.

Definition path_key (absolute : bool) (loc : list string) : string :=
  match loc with
  | [] => if absolute then "/" else "."
  | _ => (if absolute then "/" else "") +:+ join_path loc
  end.

Inductive kind : Type := Directory | Regular | Missing.

(** What stands at a place.  The root, the working directory and the
    directories above it exist. *)
Definition stat (s : FileSystem) (absolute : bool) (loc : list string) : kind :=
  if climbs loc then Directory
  else
    let k := path_key absolute loc in
    if bool_decide (k ∈ dirs s) then Directory
    else match files s !! k with
         | Some _ => Regular
         | None => Missing
         end.

(** The text of an [OSError] about a path whose [repr] needs no escape. *)
Definition errno (text path : string) : string :=
  text +:+ ": '" +:+ path +:+ "'".
Definition EEXIST (path : string) : exception :=
  FileExistsError (errno "[Errno 17] File exists" path).
Definition ENOENT (path : string) : exception :=
  FileNotFoundError (errno "[Errno 2] No such file or directory" path).
Definition EISDIR (path : string) : exception :=
  IsADirectoryError (errno "[Errno 21] Is a directory" path).
Definition ENOTDIR (path : string) : exception :=
  NotADirectoryError (errno "[Errno 20] Not a directory" path).

(** A component that leads nowhere: the empty one between two slashes,
    and [.]. *)
Definition is_dot (c : string) : bool := String.eqb c "" || String.eqb c ".".

Definition add_dir (key : string) (s : FileSystem) : FileSystem :=
  {| dirs := {[ key ]} ∪ dirs s; files := files s |}.

Definition write_file (key : string) (f : WavFile) (s : FileSystem) : FileSystem :=
  {| dirs := dirs s; files := <[ key := f ]> (files s) |}.

(** [os.makedirs(name, exist_ok=True)]: the directories on the way are
    created where nothing stands; a regular file on the way is an error,
    [FileExistsError] when it is the last name. *)
Fixpoint makedirs_from (name : string) (absolute : bool)
    (loc comps : list string) (s : FileSystem) : exception + FileSystem :=
  match comps with
  | [] => inr s
  | c :: rest =>
      if is_dot c then makedirs_from name absolute loc rest s
      else if String.eqb c ".."
      then makedirs_from name absolute (parent absolute loc) rest s
      else
        let loc' := loc ++ [c] in
        match stat s absolute loc' with
        | Directory => makedirs_from name absolute loc' rest s
        | Missing =>
            makedirs_from name absolute loc' rest
              (add_dir (path_key absolute loc') s)
        | Regular =>
            inl (if forallb (String.eqb "") rest then EEXIST name
                 else ENOTDIR name)
        end
  end.

Definition makedirs (name : string) (s : FileSystem) : exception + FileSystem :=
  if String.eqb name "" then inl (ENOENT name)
  else makedirs_from name (String.prefix "/" name) [] (split_path name) s.

(** The directory a path leads through: every name on the way must be a
    directory. *)
Fixpoint walk (path : string) (absolute : bool)
    (loc comps : list string) (s : FileSystem) : exception + list string :=
  match comps with
  | [] => inr loc
  | c :: rest =>
      if is_dot c then walk path absolute loc rest s
      else if String.eqb c ".."
      then walk path absolute (parent absolute loc) rest s
      else
        let loc' := loc ++ [c] in
        match stat s absolute loc' with
        | Directory => walk path absolute loc' rest s
        | Regular => inl (ENOTDIR path)
        | Missing => inl (ENOENT path)
        end
  end.

(** The components of a path without the empty ones that slashes at its
    end leave. *)
Fixpoint strip_trailing (comps : list string) : list string :=
  match comps with
  | [] => []
  | c :: rest =>
      match strip_trailing rest with
      | [] => if String.eqb c "" then [] else [c]
      | l => c :: l
      end
  end.

(** [open(path, 'wb')]: the key of the file that is created, or emptied
    when it exists.  The path must lead through directories to a name
    that is not one; a path that ends with a slash, with [.] or with [..]
    names a directory. *)
Definition open_wb (path : string) (s : FileSystem) : exception + string :=
  let absolute := String.prefix "/" path in
  let comps := split_path path in
  let body := strip_trailing comps in
  if String.eqb path "" then inl (ENOENT path)
  else
    match walk path absolute [] (removelast body) s with
    | inl e => inl e
    | inr loc =>
        match last body with
        | None => inl (EISDIR path)
        | Some c =>
            if negb (length body =? length comps)%nat
               || is_dot c || String.eqb c ".."
            then inl (EISDIR path)
            else
              match stat s absolute (loc ++ [c]) with
              | Directory => inl (EISDIR path)
              | _ => inr (path_key absolute (loc ++ [c]))
              end
        end
    end.

(** The file [open(path, 'wb')] leaves before anything is written: no
    header, no data. *)
Definition empty_file : WavFile :=
  {| wav_nchannels := 0; wav_sampwidth := 0; wav_framerate := 0; wav_data := [] |}.

(** *** The calls *)

Definition os_makedirs (name : string) : M unit :=
  fun w =>
    match makedirs name (fs w) with
    | inl e => (w, Raise (Exc e))
    | inr s => (set_fs (fun _ => s) w, Ok tt)
    end.

(** [wave.open(path, 'wb')]: the writer, known by the key of its file. *)
Definition wave_open (path : string) : M string :=
  fun w =>
    match open_wb path (fs w) with
    | inl e => (w, Raise (Exc e))
    | inr key => (set_fs (write_file key empty_file) w, Ok key)
    end.

(** [AudioRecorder.save_audio].  The header and the frames reach the file
    when the [with] block closes the writer. *)
Definition save_audio (audio_data : list frame) (filename : string) : M string :=
  os_makedirs SAVE_PATH ;;
  let filepath := os_path_join SAVE_PATH filename in
  wf <- wave_open filepath ;;
  modify (set_fs (write_file wf
    {| wav_nchannels := CHANNELS;
       wav_sampwidth := 2;
       wav_framerate := SAMPLE_RATE;
       wav_data := tobytes audio_data |})) ;;
  ret filepath.

(** ** Construction *)

Record Device : Type := {
  name : string;
  default_samplerate : Q
}.

(** [AudioRecorder.__init__]; [query] is the outcome of asking sounddevice
    for the default input device. *)
Definition AudioRecorder_init (query : result Device) : M unit :=
  self_set (fun _ => {| stream := None; audio_buffer := [];
                        is_recording := false; current_db := DB_MIN |}) ;;
  try_except
    (device_info <- lift query ;;
     say (Log INFO ("Using input device: " +:+ name device_info)) ;;
     if negb (Qeq_bool (default_samplerate device_info) (inject_Z SAMPLE_RATE))
     then
       say (Log WARNING "Adjusting sample rate") ;;
       modify (set_LOCAL_SAMPLE_RATE
                 (Some (py_int (default_samplerate device_info))))
     else ret tt)
    (fun e =>
       say (Log ERROR ("Error querying audio devices: " +:+ str e)) ;;
       raise (RuntimeError "Failed to initialize audio device")).

(* ===================================================================== *)
(** * Decimal text and the clock *)
(* ===================================================================== *)

Definition digit (n : nat) : ascii := ascii_of_nat (48 + n mod 10).

Fixpoint dec_go (fuel n : nat) (acc : string) : string :=
  match fuel with
  | O => acc
  | S fuel' =>
      let acc' := String (digit n) acc in
      if (n / 10 =? 0)%nat then acc' else dec_go fuel' (n / 10) acc'
  end.

(** [str(n)] for a natural number. *)
Definition dec (n : nat) : string := dec_go (S n) n "".

Fixpoint zeros (k : nat) : string :=
  match k with
  | O => ""
  | S k' => String "0" (zeros k')
  end.

(** [s.zfill(width)]. *)
Definition zfill (width : nat) (s : string) : string :=
  zeros (width - String.length s) +:+ s.

Record datetime : Type := {
  year : nat; month : nat; day : nat;
  hour : nat; minute : nat; second : nat
}.

(** [t.strftime("%Y%m%d_%H%M%S")]: the year as it is, the other fields on
    two digits. *)
Definition strftime (t : datetime) : string :=
  dec (year t) +:+ zfill 2 (dec (month t)) +:+ zfill 2 (dec (day t))
  +:+ "_" +:+ zfill 2 (dec (hour t)) +:+ zfill 2 (dec (minute t))
  +:+ zfill 2 (dec (second t)).

(* ===================================================================== *)
(** * numpy reductions the code relies on *)
(* ===================================================================== *)

(** [np.maximum] and [np.minimum] of two numbers: NaN wins. *)
Definition fmaximum (a b : qfloat) : qfloat :=
  match a, b with
  | NaN, _ | _, NaN => NaN
  | _, _ => if flt a b then b else a
  end.
Definition fminimum (a b : qfloat) : qfloat :=
  match a, b with
  | NaN, _ | _, NaN => NaN
  | _, _ => if flt b a then b else a
  end.

Definition zero_size (op : string) : exception :=
  ValueError ("zero-size array to reduction operation " +:+ op
              +:+ " which has no identity").

(** [np.max] and [np.min] over all elements: an error on an empty array. *)
Definition np_max (a : list qfloat) : result qfloat :=
  match a with
  | [] => Raise (Exc (zero_size "maximum"))
  | x :: l => Ok (fold_left fmaximum l x)
  end.
Definition np_min (a : list qfloat) : result qfloat :=
  match a with
  | [] => Raise (Exc (zero_size "minimum"))
  | x :: l => Ok (fold_left fminimum l x)
  end.

(** [np.max(m, axis=0)]: the maximum of every column, an error when the
    matrix has no row. *)
Definition np_max_axis0 (m : list (list qfloat)) : result (list qfloat) :=
  match m with
  | [] => Raise (Exc (zero_size "maximum"))
  | r :: rs => Ok (fold_left (fun acc row => zip_with fmaximum acc row) rs r)
  end.

(** [row[cols]] with a list of indices: an error when one is out of range. *)
Fixpoint take_indices (row : list qfloat) (cols : list nat) : result (list qfloat) :=
  match cols with
  | [] => Ok []
  | c :: cs =>
      match row !! c with
      | None => Raise (Exc (IndexError "index is out of bounds for axis 1"))
      | Some x => rest <- take_indices row cs ;; Ok (x :: rest)
      end
  end.

(** [m[:, cols]]. *)
Fixpoint select_columns (m : list (list qfloat)) (cols : list nat)
  : result (list (list qfloat)) :=
  match m with
  | [] => Ok []
  | r :: rs =>
      r' <- take_indices r cols ;;
      rs' <- select_columns rs cols ;;
      Ok (r' :: rs')
  end.

(** [np.argmax]: the first position of the maximum (of a NaN if any). *)
Fixpoint argmax_from (best : qfloat) (ibest i : nat) (l : list qfloat) : nat :=
  match l with
  | [] => ibest
  | x :: l' =>
      match best, x with
      | NaN, _ => ibest
      | _, NaN => argmax_from x i (S i) l'
      | _, _ => if flt best x then argmax_from x i (S i) l'
                else argmax_from best ibest (S i) l'
      end
  end.
Definition np_argmax (l : list qfloat) : result nat :=
  match l with
  | [] => Raise (Exc (ValueError "attempt to get argmax of an empty sequence"))
  | x :: l' => Ok (argmax_from x 0 1 l')
  end.

(** [l[i]] on a Python list, for an index that is not negative. *)
Definition py_index {A} (l : list A) (i : nat) : result A :=
  match l !! i with
  | Some x => Ok x
  | None => Raise (Exc (IndexError "list index out of range"))
  end.

(* ===================================================================== *)
(** * pretrained_detector.py *)
(* ===================================================================== *)

Section Detector.

(** The loaded YAMNet model: from a waveform, the score matrix (one row
    per analysis frame, one column per class), or an error. *)
Variable yamnet : list qfloat -> exception + list (list qfloat).
(** [librosa.resample(y, orig_sr, target_sr)]. *)
Variable librosa_resample : list qfloat -> Z -> Z -> exception + list qfloat.
(** [np.argsort]. *)
Variable np_argsort : list qfloat -> list nat.
(** [self.class_names], read from the class map. *)
Variable class_names : list string.

Definition gunshot_classes : list nat := [417; 418; 419]%nat.

(** [PretrainedGunshotDetector.process_audio].  The two reductions at the
    end are those of the [debug] message, evaluated whatever the level. *)
Definition process_audio (audio_data : list frame) (sample_rate : Z)
  : M (list qfloat) :=
  try_except
    (let audio := np_values audio_data in
     peak <- lift (np_max (np_abs audio)) ;;
     let audio :=
       if fgt peak (Fin 0%Q) then map (fun x => fdiv x peak) audio
       else audio in
     audio <- (if negb (sample_rate =? 16000)%Z
               then call (librosa_resample audio sample_rate 16000)
               else ret audio) ;;
     _ <- lift (np_min audio) ;;
     _ <- lift (np_max audio) ;;
     ret audio)
    (fun e =>
       say (Log ERROR ("Error processing audio: " +:+ str e)) ;;
       raise e).

(** The five best classes, best first: [np.argsort(all_probs)[-5:][::-1]]. *)
Definition top_5 (all_probs : list qfloat) : list nat :=
  let order := np_argsort all_probs in
  rev (drop (length order - 5) order).

Definition log_top (all_probs : list qfloat) (idx : nat) : M unit :=
  if (idx <? length class_names)%nat then
    cls <- lift (py_index class_names idx) ;;
    p <- lift (py_index all_probs idx) ;;
    say (LogProbability cls p "")
  else ret tt.

(** Lines 84-113: the body of the [try] of [detect]. *)
Definition detect_try (audio_data : list frame) (sample_rate : Z) : M qfloat :=
  processed_audio <- process_audio audio_data sample_rate ;;
  scores <- call (yamnet processed_audio) ;;
  all_probs <- lift (np_max_axis0 scores) ;;
  gunshot_probs <- lift (select_columns scores gunshot_classes) ;;
  max_gunshot_prob <- lift (np_max (concat gunshot_probs)) ;;
  per_class <- lift (np_max_axis0 gunshot_probs) ;;
  best <- lift (np_argmax per_class) ;;
  max_gunshot_class <- lift (py_index gunshot_classes best) ;;
  say (Log INFO (String LF "Top 5 detected sounds:")) ;;
  for_each (top_5 all_probs) (log_top all_probs) ;;
  (if fgt max_gunshot_prob (Fin 0%Q) then
     cls <- lift (py_index class_names max_gunshot_class) ;;
     say (Log INFO ("Detected gunshot type: " +:+ cls))
   else ret tt) ;;
  say (LogProbability "Gunshot probability: " max_gunshot_prob "") ;;
  ret max_gunshot_prob.

(** [PretrainedGunshotDetector.detect]. *)
Definition detect (audio_data : list frame) (sample_rate : Z) : M qfloat :=
  try_except
    (detect_try audio_data sample_rate)
    (fun e =>
       say (Log ERROR ("Error during detection: " +:+ str e)) ;;
       ret (Fin 0%Q)).

(** [PretrainedGunshotDetector.print_all_classes]. *)
Definition print_all_classes : M unit :=
  for_each (imap (fun i n => dec i +:+ ": " +:+ n) class_names)
           (fun line => say (Print line)).

End Detector.

(* ===================================================================== *)
(** * main.py: the monitoring loop *)
(* ===================================================================== *)

(** What one pass of the loop meets: the audio driver's behaviour while
    the window is captured, and the clock read if a file is named. *)
Record Round : Type := {
  driver : Driver;
  now : datetime
}.

(** Where the program stands when the rounds considered are over. *)
Inductive stage : Type :=
| Idle      (* at the top of [while True], ready for the next window *)
| Exited.   (* [main] has returned *)

Section Monitor.

(** [detector.detect]. *)
Variable detect : list frame -> Z -> M qfloat.
(** [PretrainedGunshotDetector()] and [detector.print_all_classes()]. *)
Variable load_detector : M unit.
Variable print_classes : M unit.

(** Lines 181-199: the body of the inner [try].  The two reductions are
    those of the [debug] message, evaluated whatever the level. *)
Definition window (rd : Round) : M unit :=
  audio_data <- record (driver rd) DURATION ;;
  _ <- lift (np_min (np_values audio_data)) ;;
  _ <- lift (np_max (np_values audio_data)) ;;
  probability <- detect audio_data SAMPLE_RATE ;;
  say (PrintProbability probability) ;;
  if fgt probability (Fin (2 # 10)) then
    let timestamp := strftime (now rd) in
    let filename := "gunshot_" +:+ timestamp +:+ ".wav" in
    filepath <- save_audio audio_data filename ;;
    say (LogProbability (String LF "Gunshot detected! (Probability: ") probability
           (") Saved to " +:+ filepath))
  else ret tt.

(** Lines 201-205: the handler of the inner [try].  [Pa_Sleep] reports no
    error: only Ctrl+C ends the pause early.  What a stream left running
    delivers meanwhile is counted with the stray blocks of the next
    pass. *)
Definition recover (rd : Round) (e : exception) : M unit :=
  say (Log ERROR (String LF "Error in recording loop: " +:+ str e)) ;;
  say (Log INFO "Attempting to reinitialize audio stream...") ;;
  sd_sleep []
    (if pause_interrupted (driver rd) then Some KeyboardInterrupt else None)
    1000.

(** One pass of [while True]. *)
Definition iteration (rd : Round) : M unit :=
  try_except (window rd) (recover rd).

(** The passes of [while True] over the rounds given; the loop has no
    exit of its own, so a normal end means the rounds are used up. *)
Fixpoint monitoring_loop (rounds : list Round) : M stage :=
  match rounds with
  | [] => ret Idle
  | rd :: rest => iteration rd ;; monitoring_loop rest
  end.

(** [main]. *)
Definition main (query : result Device) (rounds : list Round) : M stage :=
  fun w =>
    match
      (AudioRecorder_init query ;;
       load_detector ;;
       say (Print (String LF "Available sound classes:")) ;;
       print_classes ;;
       say (Log INFO
         "Starting gunshot detection system using pre-trained model...") ;;
       say (Print (String LF "Monitoring audio levels...")) ;;
       monitoring_loop rounds) w
    with
    | (w', Raise KeyboardInterrupt) =>
        (say (Log INFO (String LF "Shutting down...")) ;; ret Exited) w'
    | (w', Raise (Exc e)) =>
        (say (Log ERROR (String LF "Fatal error: " +:+ str e)) ;; raise e) w'
    | other => other
    end.

End Monitor.


(* ===================================================================== *)
(** * main.py: the text of the gauge *)
(* ===================================================================== *)

Definition METER_WIDTH : Z := 40.

(** [int(x)] on a real number: truncation towards zero. *)
Definition int_real (x : R) : Z :=
  if ltb x 0%R then (- Int_part (- x))%Z else Int_part x.

(** Lines 76-77 of [draw_vu_meter], with [DB_MIN] = -60 and [DB_MAX] = 0:
    the number of full segments.  [db] is a number: [calculate_db] hands
    the callback nothing else. *)
Definition meter_level (db : R) : Z :=
  let normalized := ((db - (-60)) / (0 - (-60)))%R in
  int_real (normalized * IZR METER_WIDTH).

(** [s * n] on a string: nothing when [n] is not positive. *)
Fixpoint str_repeat (s : string) (n : nat) : string :=
  match n with
  | O => ""
  | S k => s +:+ str_repeat s k
  end.
Definition str_mul (s : string) (n : Z) : string := str_repeat s (Z.to_nat n).

(** Lines 80-81: the segments of the gauge, full ones then empty ones. *)
Definition meter (db : R) : string :=
  str_mul "#" (meter_level db) +:+ str_mul "-" (METER_WIDTH - meter_level db).

Inductive colour : Type := red | yellow | green.

(** Lines 92-97: the colour of the line on a terminal that has colours. *)
Definition meter_colour (db : R) : colour :=
  if ltb (-10)%R db then red
  else if ltb (-20)%R db then yellow
  else green.

(* ===================================================================== *)
(** * pretrained_detector.py: construction *)
(* ===================================================================== *)

(** [[f(x) for x in l]], stopping at the first error. *)
Fixpoint traverse {A B} (f : A -> result B) (l : list A) : result (list B) :=
  match l with
  | [] => Ok []
  | x :: l' => y <- f x ;; ys <- traverse f l' ;; Ok (y :: ys)
  end.

Fixpoint join_names (l : list string) : string :=
  match l with
  | [] => ""
  | [x] => x
  | x :: l' => x +:+ ", " +:+ join_names l'
  end.

(** [str(l)] for a list of strings that need no escape. *)
Definition str_list (l : list string) : string :=
  "[" +:+ join_names (map (fun n => "'" +:+ n +:+ "'") l) +:+ "]".

(** [PretrainedGunshotDetector.__init__].  [hub_load] is the outcome of
    loading the model; [class_map] is what downloading the class map,
    opening it as CSV and skipping its header give: the rows that follow
    the header, or the exception met on the way.  The result is
    [self.class_names]. *)
Definition PretrainedGunshotDetector_init
    (hub_load : exception + unit) (class_map : exception + list (list string))
  : M (list string) :=
  say (Log INFO "Loading YAMNet model...") ;;
  try_except
    (call hub_load ;;
     say (Log INFO "YAMNet model loaded successfully") ;;
     rows <- call class_map ;;
     class_names <- lift (traverse (fun row => py_index row 2) rows) ;;
     gunshot_class_names <- lift (traverse (py_index class_names) gunshot_classes) ;;
     say (Log INFO ("Monitoring for classes: " +:+ str_list gunshot_class_names)) ;;
     ret class_names)
    (fun e =>
       say (Log ERROR ("Error initializing model: " +:+ str e)) ;;
       raise e).

(* ===================================================================== *)
(** * mic_test.py *)
(* ===================================================================== *)

(** [str(n)] for an integer. *)
Definition str_int (z : Z) : string :=
  if (z <? 0)%Z then "-" +:+ dec (Z.to_nat (- z)) else dec (Z.to_nat z).

(** The two bytes of a 16-bit integer, least significant first. *)
Definition int16_bytes (v : Z) : list byte :=
  [ Z.land v 255; Z.land (Z.shiftr v 8) 255 ].

Section MicTest.

(** The exception class [wave.Error], a subclass of [Exception]. *)
Variable wave_Error : string -> exception.
(** The product of a single-precision float and a Python integer, rounded
    to single precision. *)
Variable f32_mul : qfloat -> Z -> qfloat.
(** What [astype(np.int16)] makes of a value that is NaN, infinite or
    outside the range of a 16-bit integer: numpy leaves it unspecified. *)
Variable cast_out_of_range : qfloat -> Z.

(** [astype(np.int16)] of one float: truncation towards zero. *)
Definition astype_int16 (v : qfloat) : Z :=
  match v with
  | Fin x =>
      let t := py_int x in
      if ((-32768 <=? t) && (t <=? 32767))%Z then t else cast_out_of_range v
  | _ => cast_out_of_range v
  end.

(** [(recording * 32767).astype(np.int16).tobytes()]. *)
Definition pcm16_bytes (recording : list frame) : list byte :=
  concat (map (fun v => int16_bytes (astype_int16 (f32_mul v 32767)))
              (np_values recording)).

(** [MicrophoneTester.test_recording].  [device] is [None] for the default
    device, or the outcome of describing the device asked for; [rec] is
    what [sd.rec], asked for [duration * sample_rate] frames, and
    [sd.wait] deliver; [t] is the clock when the file is named.  Inside the [with]
    block a frame rate that is not positive is refused, and closing the
    writer whose header lacks a rate raises in its turn, which leaves the
    file as it was created. *)
Definition test_recording (device : option (result string))
    (rec : result (list frame)) (t : datetime) (duration sample_rate : Z)
  : M bool :=
  try_except
    (let channels := 1%Z in
     let filename := "test_recording_" +:+ strftime t +:+ ".wav" in
     say (Log INFO ("Starting " +:+ str_int duration
                    +:+ " second test recording...")) ;;
     described <- (match device with
                   | Some q => lift q
                   | None => ret "default"
                   end) ;;
     say (Log INFO ("Using device: " +:+ described)) ;;
     recording <- lift rec ;;
     os_makedirs "test_recordings" ;;
     let filepath := os_path_join "test_recordings" filename in
     wf <- wave_open filepath ;;
     (if (sample_rate <=? 0)%Z
      then raise (wave_Error "sampling rate not specified")
      else modify (set_fs (write_file wf
             {| wav_nchannels := channels;
                wav_sampwidth := 2;
                wav_framerate := sample_rate;
                wav_data := pcm16_bytes recording |}))) ;;
     say (Log INFO ("Recording saved to: " +:+ filepath)) ;;
     say (Log INFO ("Recording shape: (" +:+ dec (length recording)
                    +:+ ", " +:+ str_int channels +:+ ")")) ;;
     peak <- lift (np_max (np_abs (np_values recording))) ;;
     say (LogProbability "Max amplitude: " peak "") ;;
     ret true)
    (fun e =>
       say (Log ERROR ("Error during recording: " +:+ str e)) ;;
       ret false).

End MicTest.
(* ===================================================================== *)
(** * Vocabulary of the statements *)
(* ===================================================================== *)

(** ** Sound *)

(** A sample whose value is zero (of either sign). *)
Definition is_zero_sample (w : sample) : bool :=
  match f32_value w with
  | Fin x => q_is_zero x
  | _ => false
  end.

(** A block of silence: every sample of every frame is zero. *)
Definition silent (a : list frame) : bool := forallb (forallb is_zero_sample) a.

(** A float that is the number zero. *)
Definition zero_float (v : qfloat) : Prop := exists q, v = Fin q /\ (q == 0)%Q.

(** ** The capture buffer and the streams *)

(** The samples pushed by a list of callback invocations, in order. *)
Definition pushed (bs : list block) : list frame := concat (map fst bs).

(** A driver that lets the window run to its end. *)
Definition obliging (d : Driver) : bool :=
  match open_error d, start_error d, sleep_error d, stop_error d with
  | None, None, None, None => true
  | _, _, _, _ => false
  end.

(** Every PortAudio stream is closed. *)
Definition all_closed (w : World) : bool :=
  forallb (fun s => match status s with Closed => true | _ => false end)
          (streams w).

(** The stream [_initialize_stream] opens. *)
Definition fresh_stream : InputStream :=
  {| samplerate := SAMPLE_RATE; channels := CHANNELS;
     blocksize := 4410; status := Stopped |}.

(** The world after the callback has run on the blocks [bs]: the buffer
    has grown by them if the recorder was recording, the meter has moved
    to [db], the lines [out] have been written. *)
Definition after_blocks (bs : list block) (db : rfloat) (out : list event)
  (w : World) : World :=
  {| streams := streams w;
     recorder :=
       {| stream := stream (recorder w);
          audio_buffer :=
            if is_recording (recorder w)
            then audio_buffer (recorder w) ++ pushed bs
            else audio_buffer (recorder w);
          is_recording := is_recording (recorder w);
          current_db := db |};
     LOCAL_SAMPLE_RATE := LOCAL_SAMPLE_RATE w;
     fs := fs w;
     output := output w ++ out |}.

(** Statements out of which no [KeyboardInterrupt] comes. *)
Definition no_interrupt {A} (m : M A) : Prop :=
  forall w, snd (m w) <> Raise KeyboardInterrupt.

(** ** The loop *)

(** The state after the handler of the loop: an error line, an
    information line, one second of sleep. *)
Definition backoff (e : exception) (w : World) : World :=
  emit (SdSleep 1000)
    (emit (Log INFO "Attempting to reinitialize audio stream...")
       (emit (Log ERROR (String LF "Error in recording loop: " +:+ str e)) w)).

(** How the pause of the handler ends. *)
Definition pause_outcome (rd : Round) : result unit :=
  if pause_interrupted (driver rd) then Raise KeyboardInterrupt else Ok tt.

(** The scores the loop has printed. *)
Definition printed_scores (out : list event) : list qfloat :=
  omap (fun e => match e with PrintProbability p => Some p | _ => None end) out.

(** ** Files *)

(** A string without a slash. *)
Definition no_slash (n : string) : bool :=
  forallb (fun c => negb (Ascii.eqb c "/")) (list_ascii_of_string n).

(** A file name that is one proper component of a path. *)
Definition plain_name (n : string) : bool :=
  no_slash n && negb (is_dot n) && negb (String.eqb n "..").

(** The directory [d] of the working directory exists or can be made, and
    no directory stands where the file [n] is to be written in it. *)
Definition accepts (s : FileSystem) (d n : string) : bool :=
  match stat s false [d], stat s false [d; n] with
  | Regular, _ => false
  | _, Directory => false
  | _, _ => true
  end.

(** What [save_audio] writes for the window [a]. *)
Definition gunshot_file (a : list frame) : WavFile :=
  {| wav_nchannels := 1; wav_sampwidth := 2; wav_framerate := 44100;
     wav_data := tobytes a |}.

Definition is_digit (c : ascii) : bool :=
  let n := nat_of_ascii c in (48 <=? n)%nat && (n <=? 57)%nat.






(** ** Concrete situations *)

(** The program at start: no stream, no file, nothing printed. *)
Definition boot : World :=
  {| streams := [];
     recorder := {| stream := None; audio_buffer := [];
                    is_recording := false; current_db := DB_MIN |};
     LOCAL_SAMPLE_RATE := None;
     fs := {| dirs := ∅; files := ∅ |};
     output := [] |}.

(** Two callbacks: the samples 0.5 and -0.25, then the sample 0.125. *)
Definition two_blocks : list block :=
  [ ([[0x3f000000%Z]; [0xbe800000%Z]], ""); ([[0x3e000000%Z]], "") ].

Definition three_frames : list frame :=
  [[0x3f000000%Z]; [0xbe800000%Z]; [0x3e000000%Z]].

(** A driver that works and delivers [two_blocks]. *)
Definition fine : Driver :=
  {| stray_blocks := []; open_error := None; start_error := None;
     blocks := two_blocks; sleep_error := None; stop_error := None;
     pause_interrupted := false |}.

(** A driver that works and delivers nothing. *)
Definition mute : Driver :=
  {| stray_blocks := []; open_error := None; start_error := None;
     blocks := []; sleep_error := None; stop_error := None;
     pause_interrupted := false |}.

(** A driver that opens the stream and refuses to start it. *)
Definition stuck_start : Driver :=
  {| stray_blocks := []; open_error := None;
     start_error := Some (Exc (PortAudioError "Error starting stream"));
     blocks := []; sleep_error := None; stop_error := None;
     pause_interrupted := false |}.


(** The program at start in a directory where [recordings] is a regular
    file. *)
Definition blocked : World :=
  {| streams := [];
     recorder := {| stream := None; audio_buffer := [];
                    is_recording := false; current_db := DB_MIN |};
     LOCAL_SAMPLE_RATE := None;
     fs := {| dirs := ∅; files := {[ "recordings" := empty_file ]} |};
     output := [] |}.

Definition noon : datetime :=
  {| year := 2024; month := 3; day := 9; hour := 12; minute := 0; second := 0 |}.

(** A microphone whose native rate is 48 kHz. *)
Definition mic_48k : result Device :=
  Ok {| name := "mic"; default_samplerate := 48000 |}.

(** Classifiers: one that scores 0.9, one that answers with the rate it
    is called with, one that raises. *)
Definition certain (a : list frame) (sample_rate : Z) : M qfloat :=
  ret (Fin (9 # 10)).
Definition echo_rate (a : list frame) (sample_rate : Z) : M qfloat :=
  ret (Fin (inject_Z sample_rate)).


(** ** More vocabulary: streams *)

(** No stream of the list runs. *)
Definition quiet (ss : list InputStream) : Prop :=
  Forall (fun x => is_active x = false) ss.

(** The only stream that may run is the one the recorder holds. *)
Definition one_running (w : World) : Prop :=
  forall i x, streams w !! i = Some x -> is_active x = true ->
              stream (recorder w) = Some i.

(** The stream the recorder holds, if it holds one that exists. *)
Definition held_stream (w : World) : option InputStream :=
  match stream (recorder w) with
  | Some h => streams w !! h
  | None => None
  end.

(** ** More vocabulary: what a statement leaves alone *)

(** The world with the lines [out] written after those it had. *)
Definition logged (out : list event) (w : World) : World :=
  {| streams := streams w; recorder := recorder w;
     LOCAL_SAMPLE_RATE := LOCAL_SAMPLE_RATE w; fs := fs w;
     output := output w ++ out |}.

(** A statement that only writes lines. *)
Definition only_logs {A} (m : M A) : Prop :=
  forall w, exists out, fst (m w) = logged out w.

(** A statement that leaves the streams and the recorder as they are. *)
Definition keeps_device {A} (m : M A) : Prop :=
  forall w, streams (fst (m w)) = streams w
            /\ recorder (fst (m w)) = recorder w.

(** ** More vocabulary: numbers *)

(** A float that is a number. *)
Definition is_number (v : qfloat) : bool :=
  match v with Fin _ => true | _ => false end.
Definition finite (v : qfloat) : Prop := is_number v = true.

(** A float that is a number between -1 and 1. *)
Definition unit_range (v : qfloat) : Prop :=
  exists q, v = Fin q /\ (-1 <= q <= 1)%Q.

(** ** More concrete situations *)

(** A model that hears one frame and scores its 521 classes in ascending
    order: 0.1, 0.2 and 0.7 for the three gunshot classes. *)
Definition shot_scores : list (list qfloat) :=
  [ repeat (Fin 0%Q) 417
    ++ [Fin (1 # 10); Fin (2 # 10); Fin (7 # 10)]
    ++ repeat (Fin (9 # 10)) 101 ].
Definition shot_model (waveform : list qfloat) : exception + list (list qfloat) :=
  inr shot_scores.

(** A resampler that hands back what it is given. *)
Definition no_resample (y : list qfloat) (orig_sr target_sr : Z)
  : exception + list qfloat := inr y.

(** [np.argsort] on an array in ascending order: the positions as they
    are. *)
Definition positions (l : list qfloat) : list nat := seq 0 (length l).

(** A class map of 521 rows, and its third column. *)
Definition class_rows : list (list string) :=
  map (fun i => [dec i; "/m/" +:+ dec i; "Class " +:+ dec i]) (seq 0 521).
Definition class_list : list string :=
  map (fun i => "Class " +:+ dec i) (seq 0 521).

(** A class map of one row. *)
Definition one_row : list (list string) := [["0"; "/m/09x0r"; "Speech"]].

(** The construction of the detector from [class_rows], as [main] runs
    it. *)
Definition load_classes : M unit :=
  PretrainedGunshotDetector_init (inr tt) (inr class_rows) ;; ret tt.

(** The product by a positive integer where no rounding is needed. *)
Definition exact_mul (v : qfloat) (k : Z) : qfloat :=
  match v with
  | Fin x => Fin (x * inject_Z k)%Q
  | other => other
  end.

(** A cast that answers 0 out of range. *)
Definition cast_zero (v : qfloat) : Z := 0.
(* ===================================================================== *)
(** * The level meter *)

Lemma R_ltb_spec (x y : R) : ltb x y = true <-> (x < y)%R.
Proof.
  unfold ltb, R_ltb. destruct (Rlt_dec x y); split; intros; auto; discriminate.
Qed.

Lemma R_ltb_false (x y : R) : ltb x y = false <-> (y <= x)%R.
Proof.
  unfold ltb, R_ltb. destruct (Rlt_dec x y); split; intros; auto; try discriminate; lra.
Qed.

(** The two clamps of line 71 applied to anything but NaN. *)
Lemma clamp_range (db : rfloat) :
  db <> NaN ->
  exists r, py_max (py_min db DB_MAX) DB_MIN = Fin r /\ (-60 <= r <= 0)%R.
Proof.
  intros Hn. destruct db as [ | [ | ] | x ]; [congruence | | | ].
  - exists (-60)%R. split; [ | lra ].
    unfold py_max, py_min, fgt, DB_MAX, DB_MIN. simpl. reflexivity.
  - exists 0%R. split; [ | lra ].
    unfold py_max, py_min, fgt, DB_MAX, DB_MIN. simpl.
    destruct (ltb 0%R (-60)%R) eqn:E; [ | reflexivity ].
    apply R_ltb_spec in E. lra.
  - unfold py_max, py_min, fgt, DB_MAX, DB_MIN. simpl.
    destruct (ltb 0%R x) eqn:E1; simpl.
    + destruct (ltb 0%R (-60)%R) eqn:E2.
      * apply R_ltb_spec in E2. lra.
      * exists 0%R. split; [ reflexivity | lra ].
    + apply R_ltb_false in E1.
      destruct (ltb x (-60)%R) eqn:E2.
      * exists (-60)%R. split; [ reflexivity | lra ].
      * apply R_ltb_false in E2. exists x. split; [ reflexivity | lra ].
Qed.

Lemma clamp_DB_MIN : py_max (py_min DB_MIN DB_MAX) DB_MIN = DB_MIN.
Proof.
  unfold py_max, py_min, fgt, DB_MAX, DB_MIN. simpl.
  destruct (ltb 0%R (-60)%R) eqn:E1.
  - apply R_ltb_spec in E1. lra.
  - simpl. destruct (ltb (-60)%R (-60)%R) eqn:E2; [ | reflexivity ].
    apply R_ltb_spec in E2. lra.
Qed.

(** [calculate_db] never raises, and its value is a number of the range. *)
Lemma calculate_db_total (audio_data : list frame) :
  exists r, calculate_db audio_data = Ok (Fin r) /\ (-60 <= r <= 0)%R.
Proof.
  unfold calculate_db.
  destruct (length audio_data =? 0)%nat.
  { exists (-60)%R. split; [ reflexivity | lra ]. }
  destruct (np_sqrt (np_mean (np_square (np_values audio_data))))
    as [ | [ | ] | r ]; simpl.
  - rewrite clamp_DB_MIN. exists (-60)%R. split; [ reflexivity | lra ].
  - rewrite clamp_DB_MIN. exists (-60)%R. split; [ reflexivity | lra ].
  - destruct (clamp_range (Inf false)) as (r & Hr & Hb); [ discriminate | ].
    exists r. unfold fgt. simpl. rewrite Hr. auto.
  - unfold fgt. simpl. destruct (ltb (Root 0) r) eqn:E; simpl.
    + match goal with
      | |- context [py_max (py_min ?d DB_MAX) DB_MIN] =>
          destruct (clamp_range d) as (x & Hx & Hb); [ discriminate | ]
      end.
      exists x. rewrite Hx. auto.
    + rewrite clamp_DB_MIN. exists (-60)%R. split; [ reflexivity | lra ].
Qed.

Lemma Q_ltb_zero (x : Q) : (x == 0)%Q -> ltb x 0%Q = false /\ ltb 0%Q x = false.
Proof.
  intros Hx. unfold ltb, Q_ltb. split.
  - assert (H : Qle_bool 0 x = true) by (apply Qle_bool_iff; rewrite Hx; apply Qle_refl).
    rewrite H. reflexivity.
  - assert (H : Qle_bool x 0 = true) by (apply Qle_bool_iff; rewrite Hx; apply Qle_refl).
    rewrite H. reflexivity.
Qed.

Lemma silent_values (a : list frame) :
  silent a = true -> Forall zero_float (np_square (np_values a)).
Proof.
  unfold silent, np_square, np_values.
  induction a as [ | f a IH ]; cbn [forallb concat map].
  - intros _. constructor.
  - intros H. apply andb_prop in H. destruct H as [Hf Ha].
    rewrite !map_app. apply Forall_app. split; [ | apply IH, Ha ].
    clear IH Ha. induction f as [ | w f IHf ]; cbn [forallb map] in *;
      [ constructor | ].
    apply andb_prop in Hf. destruct Hf as [Hw Hf]. constructor; [ | apply IHf, Hf ].
    unfold is_zero_sample in Hw. destruct (f32_value w) as [ | | x ]; try discriminate.
    unfold q_is_zero in Hw. apply Qeq_bool_iff in Hw.
    exists (x * x)%Q. split; [ reflexivity | ]. rewrite Hw. reflexivity.
Qed.

Lemma np_sum_zero (l : list qfloat) (z : Q) :
  Forall zero_float l -> (z == 0)%Q ->
  exists z', fold_left fadd l (Fin z) = Fin z' /\ (z' == 0)%Q.
Proof.
  intros Hl. revert z. induction Hl as [ | v l (q & -> & Hq) _ IH ]; intros z Hz; simpl.
  - exists z. auto.
  - apply IH. rewrite Hz, Hq. reflexivity.
Qed.

(** The root-mean-square of silence is not above zero. *)
Lemma silent_rms (a : list frame) :
  silent a = true ->
  fgt (np_sqrt (np_mean (np_square (np_values a)))) (Fin (Root 0)) = false.
Proof.
  intros H. apply silent_values in H.
  unfold np_mean. destruct (np_square (np_values a)) as [ | v l ] eqn:E.
  { reflexivity. }
  destruct (np_sum_zero (v :: l) 0 H) as (z & Hz & Hz0); [ reflexivity | ].
  unfold np_sum. rewrite Hz. unfold fdiv.
  assert (Hn : q_is_zero (inject_Z (Z.of_nat (length (v :: l)))) = false).
  { unfold q_is_zero. destruct (Qeq_bool _ 0) eqn:Eq; [ | reflexivity ].
    apply Qeq_bool_iff in Eq. unfold Qeq in Eq. simpl in Eq. lia. }
  rewrite Hn.
  assert (Hd : (z / inject_Z (Z.of_nat (length (v :: l))) == 0)%Q).
  { rewrite Hz0. unfold Qdiv. apply Qmult_0_l. }
  destruct (Q_ltb_zero _ Hd) as [H1 H2].
  unfold np_sqrt. rewrite H1. unfold fgt. simpl. unfold ltb, root_ltb. simpl.
  exact H2.
Qed.

(** C7.  For every sample sequence [calculate_db] returns (it does not
    raise) a number between [DB_MIN] = -60 and [DB_MAX] = 0, hence neither
    an infinity nor NaN; for the empty sequence and for a sequence of
    zeros it returns [DB_MIN]. *)
Theorem calculate_db_in_range (s : list frame) :
  (exists r, calculate_db s = Ok (Fin r) /\ (-60 <= r <= 0)%R)
  /\ (s = [] -> calculate_db s = Ok DB_MIN)
  /\ (silent s = true -> calculate_db s = Ok DB_MIN).
Proof.
  split; [ apply calculate_db_total | split ].
  - intros ->. reflexivity.
  - intros H. unfold calculate_db.
    destruct (length s =? 0)%nat; [ reflexivity | ].
    rewrite (silent_rms s H). simpl. rewrite clamp_DB_MIN. reflexivity.
Qed.

(** Two frames of silence, one with a positive and one with a negative zero. *)
Lemma calculate_db_in_range_witness :
  silent [[0%Z]; [0x80000000%Z]] = true
  /\ calculate_db [[0%Z]; [0x80000000%Z]] = Ok DB_MIN
  /\ calculate_db [] = Ok DB_MIN.
Proof.
  split; [ reflexivity | split ].
  - apply (calculate_db_in_range [[0%Z]; [0x80000000%Z]]). reflexivity.
  - apply (calculate_db_in_range []). reflexivity.
Defined.

(* ===================================================================== *)
(** * Reasoning about statements *)
(* ===================================================================== *)

Lemma bind_eq {A B} (m : M A) (k : A -> M B) (w : World) :
  (x <- m ;; k x) w =
  match m w with
  | (w', Ok a) => k a w'
  | (w', Raise r) => (w', Raise r)
  end.
Proof. reflexivity. Qed.

Lemma bind_Ok_inv {A B} (m : M A) (k : A -> M B) (w w2 : World) (b : B) :
  (x <- m ;; k x) w = (w2, Ok b) ->
  exists w1 a, m w = (w1, Ok a) /\ k a w1 = (w2, Ok b).
Proof.
  rewrite bind_eq. destruct (m w) as [w1 [a | r]]; intros H.
  - exists w1, a. auto.
  - discriminate.
Qed.

Lemma lift_Ok_inv {A} (r : result A) (w w' : World) (a : A) :
  lift r w = (w', Ok a) -> r = Ok a /\ w' = w.
Proof. unfold lift. intros H. inversion H. auto. Qed.

Lemma call_Ok_inv {A} (r : exception + A) (w w' : World) (a : A) :
  call r w = (w', Ok a) -> r = inr a /\ w' = w.
Proof. unfold call. destruct r; intros H; inversion H. auto. Qed.

Create HintDb interrupt.

Lemma ni_ret {A} (a : A) : no_interrupt (ret a).
Proof. intros w. discriminate. Qed.

Lemma ni_bind {A B} (m : M A) (k : A -> M B) :
  no_interrupt m -> (forall a, no_interrupt (k a)) -> no_interrupt (x <- m ;; k x).
Proof.
  intros Hm Hk w. rewrite bind_eq. specialize (Hm w).
  destruct (m w) as [w1 [a | r]]; simpl in *; [ apply Hk | ].
  intros E. apply Hm. inversion E. reflexivity.
Qed.

Lemma ni_lift {A} (r : result A) :
  r <> Raise KeyboardInterrupt -> no_interrupt (lift r).
Proof. intros H w. exact H. Qed.

Lemma ni_call {A} (r : exception + A) : no_interrupt (call r).
Proof. intros w. unfold call. destruct r; discriminate. Qed.

Lemma ni_raise {A} (e : exception) : no_interrupt (@raise A e).
Proof. intros w. discriminate. Qed.

Lemma ni_say (e : event) : no_interrupt (say e).
Proof. intros w. discriminate. Qed.

Lemma ni_try_except {A} (body : M A) (handler : exception -> M A) :
  no_interrupt body -> (forall e, no_interrupt (handler e)) ->
  no_interrupt (try_except body handler).
Proof.
  intros Hb Hh w. unfold try_except. specialize (Hb w).
  destruct (body w) as [w1 [a | [e | ]]]; simpl in *;
    [ discriminate | apply Hh | congruence ].
Qed.

Lemma ni_for_each {A} (l : list A) (f : A -> M unit) :
  (forall a, no_interrupt (f a)) -> no_interrupt (for_each l f).
Proof.
  intros Hf. induction l as [ | x l IH ]; simpl.
  - apply ni_ret.
  - apply ni_bind; auto.
Qed.

Lemma ni_if {A} (b : bool) (m1 m2 : M A) :
  no_interrupt m1 -> no_interrupt m2 -> no_interrupt (if b then m1 else m2).
Proof. destruct b; auto. Qed.

#[local] Hint Resolve ni_ret ni_bind ni_call ni_raise ni_say ni_try_except
  ni_for_each ni_if : interrupt.

Lemma np_max_exc (a : list qfloat) : np_max a <> Raise KeyboardInterrupt.
Proof. destruct a; discriminate. Qed.

Lemma np_min_exc (a : list qfloat) : np_min a <> Raise KeyboardInterrupt.
Proof. destruct a; discriminate. Qed.

Lemma np_max_axis0_exc (m : list (list qfloat)) :
  np_max_axis0 m <> Raise KeyboardInterrupt.
Proof. destruct m; discriminate. Qed.

Lemma np_argmax_exc (l : list qfloat) : np_argmax l <> Raise KeyboardInterrupt.
Proof. destruct l; discriminate. Qed.

Lemma py_index_exc {A} (l : list A) (i : nat) :
  py_index l i <> Raise KeyboardInterrupt.
Proof. unfold py_index. destruct (l !! i); discriminate. Qed.

Lemma take_indices_exc (row : list qfloat) (cols : list nat) :
  take_indices row cols <> Raise KeyboardInterrupt.
Proof.
  induction cols as [ | c cs IH ]; simpl; [ discriminate | ].
  destruct (row !! c); [ | discriminate ].
  destruct (take_indices row cs) as [ rest | r ]; [ discriminate | ].
  simpl. intros E. apply IH. inversion E. reflexivity.
Qed.

Lemma select_columns_exc (m : list (list qfloat)) (cols : list nat) :
  select_columns m cols <> Raise KeyboardInterrupt.
Proof.
  induction m as [ | r rs IH ]; simpl; [ discriminate | ].
  pose proof (take_indices_exc r cols) as Hr.
  destruct (take_indices r cols) as [ r' | x ];
    [ | simpl; intros E; apply Hr; inversion E; reflexivity ].
  destruct (select_columns rs cols) as [ rs' | x ]; [ discriminate | ].
  simpl. intros E. apply IH. inversion E. reflexivity.
Qed.

#[local] Hint Resolve np_max_exc np_min_exc np_max_axis0_exc np_argmax_exc
  py_index_exc take_indices_exc select_columns_exc ni_lift : interrupt.

Ltac interrupt_free :=
  repeat first
    [ apply ni_ret | apply ni_say | apply ni_call | apply ni_raise
    | apply ni_lift; solve [ auto with interrupt ]
    | apply ni_bind; [ | intros ? ]
    | apply ni_try_except; [ | intros ? ]
    | apply ni_for_each; intros ?
    | apply ni_if ].

(** * The classifier wrapper *)

Section DetectorProofs.

Variable yamnet : list qfloat -> exception + list (list qfloat).
Variable librosa_resample : list qfloat -> Z -> Z -> exception + list qfloat.
Variable np_argsort : list qfloat -> list nat.
Variable class_names : list string.

Lemma process_audio_no_interrupt (a : list frame) (sr : Z) :
  no_interrupt (process_audio librosa_resample a sr).
Proof. unfold process_audio. interrupt_free. Qed.

Lemma detect_try_no_interrupt (a : list frame) (sr : Z) :
  no_interrupt (detect_try yamnet librosa_resample np_argsort class_names a sr).
Proof.
  unfold detect_try. apply ni_bind; [ apply process_audio_no_interrupt | intros ? ].
  unfold log_top. interrupt_free.
Qed.

(** What the [try] of [detect] returns is the largest score of the
    gunshot columns of the matrix the model produced. *)
Lemma detect_try_value (a : list frame) (sr : Z) (w w1 : World) (q : qfloat) :
  detect_try yamnet librosa_resample np_argsort class_names a sr w = (w1, Ok q) ->
  exists w0 processed scores probs,
    process_audio librosa_resample a sr w = (w0, Ok processed)
    /\ yamnet processed = inr scores
    /\ select_columns scores gunshot_classes = Ok probs
    /\ np_max (concat probs) = Ok q.
Proof.
  unfold detect_try. intros H.
  apply bind_Ok_inv in H. destruct H as (w0 & processed & Hp & H).
  apply bind_Ok_inv in H. destruct H as (w2 & scores & Hs & H).
  apply call_Ok_inv in Hs. destruct Hs as [Hs ->].
  apply bind_Ok_inv in H. destruct H as (w3 & all_probs & Ha & H).
  apply lift_Ok_inv in Ha. destruct Ha as [Ha ->].
  apply bind_Ok_inv in H. destruct H as (w4 & probs & Hg & H).
  apply lift_Ok_inv in Hg. destruct Hg as [Hg ->].
  apply bind_Ok_inv in H. destruct H as (w5 & p & Hm & H).
  apply lift_Ok_inv in Hm. destruct Hm as [Hm ->].
  repeat (apply bind_Ok_inv in H; destruct H as (? & ? & _ & H)).
  inversion H. subst.
  exists w0, processed, scores, probs. auto.
Qed.

(** C9.  [detect] never hands an exception to its caller: on every
    input it returns a score, which is the largest gunshot-class score
    when its [try] block runs to the end, and 0.0 when anything in it
    (the processing, the model, the look-ups) raises; on an empty input
    it returns 0.0. *)
Theorem detect_never_raises (audio_data : list frame) (sample_rate : Z) (w : World) :
  (exists w' p,
      detect yamnet librosa_resample np_argsort class_names
             audio_data sample_rate w = (w', Ok p)
      /\ match detect_try yamnet librosa_resample np_argsort class_names
                 audio_data sample_rate w with
         | (_, Ok q) =>
             p = q
             /\ exists w0 processed scores probs,
                 process_audio librosa_resample audio_data sample_rate w
                   = (w0, Ok processed)
                 /\ yamnet processed = inr scores
                 /\ select_columns scores gunshot_classes = Ok probs
                 /\ np_max (concat probs) = Ok q
         | (_, Raise _) => p = Fin 0%Q
         end)
  /\ snd (detect yamnet librosa_resample np_argsort class_names
                 [] sample_rate w) = Ok (Fin 0%Q).
Proof.
  split; [ | reflexivity ].
  unfold detect, try_except.
  pose proof (detect_try_no_interrupt audio_data sample_rate w) as Hni.
  pose proof (detect_try_value audio_data sample_rate w) as Hv.
  destruct (detect_try yamnet librosa_resample np_argsort class_names
              audio_data sample_rate w) as [w1 [q | [e | ]]]; simpl in Hni.
  - exists w1, q. split; [ reflexivity | ]. split; [ reflexivity | ].
    apply (Hv w1 q). reflexivity.
  - eexists _, _. split; reflexivity.
  - congruence.
Qed.

End DetectorProofs.


(* ===================================================================== *)
(** * The recorder *)
(* ===================================================================== *)

(** One step of symbolic execution: the monad, the setters and the
    sounddevice calls are unfolded, the lists are left alone. *)
Ltac run :=
  cbv beta iota zeta delta
    [bind ret M_Monad say modify get self self_set lift call raise emit
     set_recorder set_streams set_fs set_LOCAL_SAMPLE_RATE set_stream
     set_audio_buffer set_is_recording set_current_db
     streams recorder LOCAL_SAMPLE_RATE fs output
     stream audio_buffer is_recording current_db
     draw_vu_meter fst snd try_except try_finally with_ fail_with
     stream_active stream_set stream_start stream_stop stream_close
     sd_InputStream sd_sleep negb after_blocks].

Ltac tidy :=
  unfold pushed; cbn [concat map fst snd app];
  rewrite ?app_nil_r, <- ?app_assoc; cbn [app].

(** The callback never raises; it appends its block when the recorder is
    recording and leaves the buffer alone otherwise. *)
Lemma audio_callback_spec (indata : list frame) (st : string) (w : World) :
  exists db out,
    _audio_callback indata st w = (after_blocks [(indata, st)] db out w, Ok tt).
Proof.
  destruct w as [ss [s buf isrec cdb] loc f out0].
  destruct (calculate_db_total indata) as (r & E & _).
  unfold _audio_callback, pushed.
  destruct (negb (String.eqb st "")), isrec; run; rewrite ?E; run.
  - exists (Fin r), [Log WARNING ("Status: " +:+ st); VuMeter (Fin r)].
    tidy. reflexivity.
  - exists cdb, [Log WARNING ("Status: " +:+ st)]. tidy. reflexivity.
  - exists (Fin r), [VuMeter (Fin r)]. tidy. reflexivity.
  - exists cdb, []. tidy. reflexivity.
Qed.

Lemma after_blocks_nil (w : World) :
  after_blocks [] (current_db (recorder w)) [] w = w.
Proof.
  destruct w as [ss [s buf isrec cdb] loc f out0]. unfold pushed. run.
  destruct isrec; tidy; reflexivity.
Qed.

Lemma after_blocks_cons (b : block) (bs : list block)
      (db1 db2 : rfloat) (out1 out2 : list event) (w : World) :
  after_blocks bs db2 out2 (after_blocks [b] db1 out1 w)
  = after_blocks (b :: bs) db2 (out1 ++ out2) w.
Proof.
  destruct w as [ss [s buf isrec cdb] loc f out0]. unfold pushed. run.
  destruct isrec; tidy; reflexivity.
Qed.

Lemma for_each_callback_spec (bs : list block) (w : World) :
  exists db out,
    for_each bs (fun b => _audio_callback (fst b) (snd b)) w
    = (after_blocks bs db out w, Ok tt).
Proof.
  revert w. induction bs as [ | [indata st] bs IH ]; intros w; cbn [for_each].
  - exists (current_db (recorder w)), []. rewrite after_blocks_nil. reflexivity.
  - rewrite bind_eq. cbn [fst snd].
    destruct (audio_callback_spec indata st w) as (db1 & out1 & ->).
    destruct (IH (after_blocks [(indata, st)] db1 out1 w)) as (db2 & out2 & ->).
    exists db2, (out1 ++ out2). rewrite after_blocks_cons. reflexivity.
Qed.

(** The driver thread calls the callback on every block while a stream
    runs, and does nothing otherwise. *)
Lemma fire_spec (bs : list block) (w : World) :
  exists db out,
    fire bs w
    = (if existsb is_active (streams w) then after_blocks bs db out w else w,
       Ok tt).
Proof.
  unfold fire. rewrite bind_eq. unfold get.
  destruct (existsb is_active (streams w)).
  - apply for_each_callback_spec.
  - exists NaN, []. reflexivity.
Qed.

Lemma alter_last {A} (f : A -> A) (l : list A) (x : A) :
  alter f (length l) (l ++ [x]) = l ++ [f x].
Proof.
  induction l as [ | y l IH ]; simpl; [ reflexivity | ]. f_equal. exact IH.
Qed.

Lemma lookup_last {A} (l : list A) (x : A) : (l ++ [x]) !! length l = Some x.
Proof. induction l as [ | y l IH ]; simpl; [ reflexivity | exact IH ]. Qed.

Lemma running_last (l : list InputStream) (x : InputStream) :
  is_active x = true -> existsb is_active (l ++ [x]) = true.
Proof.
  intros H. rewrite existsb_app. simpl. rewrite H.
  apply orb_true_iff. right. reflexivity.
Qed.

(** [_initialize_stream] answers [True] only after it has opened a new
    stream, the last of the list, which the recorder then holds. *)
Lemma initialize_stream_spec (d : Driver) (w : World) :
  match _initialize_stream d w with
  | (w1, Ok true) =>
      open_error d = None
      /\ exists ss out,
          w1 = {| streams := ss ++ [fresh_stream];
                  recorder := set_stream (Some (length ss)) (recorder w);
                  LOCAL_SAMPLE_RATE := LOCAL_SAMPLE_RATE w;
                  fs := fs w;
                  output := out |}
  | (w1, _) => open_error d <> None \/ stop_error d <> None
  end.
Proof.
  destruct w as [ss [s buf isrec cdb] loc f out0].
  unfold _initialize_stream. run.
  destruct s as [h | ]; [ destruct (ss !! h) as [x | ] | ];
    [ unfold is_active; destruct (status x) | | ];
    destruct (stop_error d) as [[e1 | ] | ] eqn:E1;
    destruct (open_error d) as [[e2 | ] | ] eqn:E2; run;
    try (left; discriminate); try (right; discriminate);
    (split; [ reflexivity | eexists _, _; reflexivity ]).
Qed.

Lemma obliging_false_open (d : Driver) :
  open_error d <> None \/ stop_error d <> None -> obliging d = false.
Proof.
  unfold obliging. intros [H | H];
    destruct (open_error d), (start_error d), (sleep_error d), (stop_error d);
    congruence.
Qed.

Ltac fire_step :=
  match goal with
  | |- context [fire ?bs ?W] =>
      let db := fresh "db" in
      let out := fresh "out" in
      destruct (fire_spec bs W) as (db & out & ->)
  end.

(** [record] returns exactly when the driver is obliging, and what it
    returns is what the callback pushed while it slept, whatever the
    buffer held before and whatever blocks strayed in at its entry. *)
Lemma record_spec (d : Driver) (duration : Z) (w : World) :
  match record d duration w with
  | (w', Ok a) =>
      a = pushed (blocks d)
      /\ audio_buffer (recorder w') = pushed (blocks d)
      /\ is_recording (recorder w') = false
      /\ fs w' = fs w
      /\ LOCAL_SAMPLE_RATE w' = LOCAL_SAMPLE_RATE w
      /\ obliging d = true
  | (w', Raise r) => obliging d = false
  end.
Proof.
  destruct w as [ss [s buf isrec cdb] loc f out0].
  unfold record. run. fire_step. run.
  destruct (existsb is_active ss).
  all: match goal with
       | |- context [_initialize_stream ?d' ?W] =>
           pose proof (initialize_stream_spec d' W) as Hi;
           destruct (_initialize_stream d' W) as [w1 [[ | ] | r]]
       end.
  all: try (run; apply obliging_false_open; exact Hi).
  all: destruct Hi as (Ho & ss' & out' & ->); unfold obliging; rewrite Ho.
  all: destruct (start_error d) as [ [ e1 | ] | ];
       destruct (sleep_error d) as [ [ e2 | ] | ];
       destruct (stop_error d) as [ [ e3 | ] | ].
  all: repeat first
         [ rewrite alter_last
         | rewrite lookup_last
         | rewrite running_last by reflexivity
         | fire_step
         | progress run
         | progress cbv beta iota delta
             [is_active set_status status fresh_stream] ].
  all: try reflexivity.
  all: repeat split; reflexivity.
Qed.

(** C10.  Whatever the recorder held before the call (any buffer, any
    flag, any stream) and whatever blocks a stream left running delivers
    at its entry, [record] returns exactly when the driver lets the window
    run to its end, and the window it returns is made of the blocks pushed
    during that call, in order, and of nothing else; and the callback
    appends to the buffer only while [is_recording] is set. *)
Theorem record_window_holds_only_its_own_blocks
    (d : Driver) (duration : Z) (w : World) :
  match record d duration w with
  | (w', Ok a) =>
      obliging d = true
      /\ a = pushed (blocks d)
      /\ is_recording (recorder w') = false
  | (_, Raise _) => obliging d = false
  end
  /\ forall indata st,
      audio_buffer (recorder (fst (_audio_callback indata st w)))
      = if is_recording (recorder w)
        then audio_buffer (recorder w) ++ indata
        else audio_buffer (recorder w).
Proof.
  split.
  - pose proof (record_spec d duration w) as H.
    destruct (record d duration w) as [w' [a | r]]; [ | exact H ].
    destruct H as (Ha & _ & Hr & _ & _ & Ho). auto.
  - intros indata st.
    destruct (audio_callback_spec indata st w) as (db & out & ->).
    unfold after_blocks, pushed. cbn [fst recorder audio_buffer concat map].
    rewrite app_nil_r. reflexivity.
Qed.

(** C6, as the code has it.  When the driver is obliging, [record]
    returns the concatenation of the blocks pushed during the call, in
    push order.  The read that ends [record] leaves the buffer as it is:
    the recorder still holds the window afterwards.  It is the reset at
    the entry of the next [record] that empties it, so that a second
    [record] during which nothing is pushed returns the empty sequence. *)
Theorem record_returns_pushed_blocks
    (d1 d2 : Driver) (duration : Z) (w : World) :
  obliging d1 = true ->
  obliging d2 = true ->
  blocks d2 = [] ->
  exists w1 w2,
    record d1 duration w = (w1, Ok (pushed (blocks d1)))
    /\ audio_buffer (recorder w1) = pushed (blocks d1)
    /\ record d2 duration w1 = (w2, Ok []).
Proof.
  intros H1 H2 Hb.
  pose proof (record_spec d1 duration w) as S1.
  destruct (record d1 duration w) as [w1 [a1 | r1]]; [ | congruence ].
  destruct S1 as (-> & Hbuf & _).
  pose proof (record_spec d2 duration w1) as S2.
  destruct (record d2 duration w1) as [w2 [a2 | r2]] eqn:E2; [ | congruence ].
  destruct S2 as (Ha2 & _).
  exists w1, w2. split; [ reflexivity | ]. split; [ exact Hbuf | ].
  rewrite E2, Ha2, Hb. reflexivity.
Qed.

(** Two blocks recorded from the start state, then a window without any. *)
Lemma record_returns_pushed_blocks_witness :
  exists w1 w2,
    record fine DURATION boot = (w1, Ok (pushed (blocks fine)))
    /\ audio_buffer (recorder w1) = pushed (blocks fine)
    /\ record mute DURATION w1 = (w2, Ok []).
Proof.
  apply (record_returns_pushed_blocks fine mute DURATION boot); reflexivity.
Defined.

(** C6, as the specification words it, fails: after [record] has handed
    out the window of [two_blocks], no block having been pushed since, a
    second read of the buffer gives the same three frames, not the empty
    sequence. *)
Lemma second_drain_is_not_empty :
  let w1 := fst (record fine DURATION boot) in
  snd (record fine DURATION boot) = Ok three_frames
  /\ snd (self audio_buffer w1) = Ok three_frames
  /\ snd (self audio_buffer w1) <> Ok [].
Proof.
  cbv zeta. split; [ | split ].
  - vm_compute. reflexivity.
  - vm_compute. reflexivity.
  - vm_compute. discriminate.
Qed.

(** When the driver opens the stream and refuses to start it, [record]
    raises, and the stream it has just opened, which the recorder still
    holds, is left open: not started, not closed. *)
Lemma record_start_failure (d : Driver) (duration : Z) (w : World) (e : exception) :
  open_error d = None ->
  stop_error d = None ->
  start_error d = Some (Exc e) ->
  exists w' h,
    record d duration w = (w', Raise (Exc e))
    /\ stream (recorder w') = Some h
    /\ streams w' !! h = Some fresh_stream.
Proof.
  intros Ho Hs He.
  destruct w as [ss [s buf isrec cdb] loc f out0].
  unfold record. run. fire_step. run.
  destruct (existsb is_active ss).
  all: match goal with
       | |- context [_initialize_stream ?d' ?W] =>
           pose proof (initialize_stream_spec d' W) as Hi;
           destruct (_initialize_stream d' W) as [w1 [[ | ] | r]]
       end.
  all: try (exfalso; destruct Hi as [Hi | Hi]; congruence).
  all: destruct Hi as (_ & ss' & out' & ->); rewrite He.
  all: repeat first
         [ rewrite lookup_last
         | progress run
         | progress cbv beta iota delta [is_active status fresh_stream] ].
  all: eexists _, (length ss'); split; [ reflexivity | ];
       split; [ reflexivity | ]; cbn [streams]; apply lookup_last.
Qed.

(** C3 on the code.  The driver opens the stream and refuses to start
    it: [record] raises, the stream it opened is left open ([Stopped], not
    [Closed]) although nothing refers to closing it any more: the next,
    successful [record] opens and closes a second stream and leaves the
    first one open. *)
Theorem failed_start_leaves_stream_open :
  let w1 := fst (record stuck_start DURATION boot) in
  let w2 := fst (record fine DURATION w1) in
  snd (record stuck_start DURATION boot)
    = Raise (Exc (PortAudioError "Error starting stream"))
  /\ map status (streams w1) = [Stopped]
  /\ all_closed w1 = false
  /\ audio_buffer (recorder w1) = []
  /\ snd (record fine DURATION w1) = Ok three_frames
  /\ map status (streams w2) = [Stopped; Closed]
  /\ all_closed w2 = false.
Proof.
  cbv zeta. repeat split; vm_compute; reflexivity.
Qed.
(** * The monitoring loop *)

Lemma recover_eq (rd : Round) (e : exception) (w : World) :
  recover rd e w = (backoff e w, pause_outcome rd).
Proof.
  unfold recover, sd_sleep, fire, backoff, pause_outcome. rewrite !bind_eq. simpl.
  destruct (existsb is_active (streams w)), (pause_interrupted (driver rd));
    reflexivity.
Qed.

Lemma np_min_values_ok (l : list qfloat) :
  l <> [] -> exists v, np_min l = Ok v.
Proof. destruct l; [ congruence | eexists; reflexivity ]. Qed.

Lemma np_max_values_ok (l : list qfloat) :
  l <> [] -> exists v, np_max l = Ok v.
Proof. destruct l; [ congruence | eexists; reflexivity ]. Qed.

Section MonitorProofs.

Variable detect : list frame -> Z -> M qfloat.




Lemma iteration_outcome (rd : Round) (w : World) :
  match iteration detect rd w with
  | (_, Ok _) => True
  | (_, Raise r) => r = KeyboardInterrupt
  end.
Proof.
  unfold iteration, try_except.
  destruct (window detect rd w) as [w1 [ [] | [e | ]]]; auto.
  rewrite recover_eq. unfold pause_outcome.
  destruct (pause_interrupted (driver rd)); auto.
Qed.

Lemma monitoring_loop_outcome (rounds : list Round) (w : World) :
  match monitoring_loop detect rounds w with
  | (_, Ok s) => s = Idle
  | (_, Raise r) => r = KeyboardInterrupt
  end.
Proof.
  revert w. induction rounds as [ | rd rest IH ]; intros w; cbn [monitoring_loop].
  - reflexivity.
  - rewrite bind_eq. pose proof (iteration_outcome rd w) as H.
    destruct (iteration detect rd w) as [w1 [ [] | r ]]; [ apply IH | exact H ].
Qed.


End MonitorProofs.

(* ===================================================================== *)
(** * Persistence *)
(* ===================================================================== *)

(** ** Paths *)

Lemma append_String (c : ascii) (a b : string) :
  String c a +:+ b = String c (a +:+ b).
Proof. reflexivity. Qed.

Lemma no_slash_app (a b : string) :
  no_slash (a +:+ b) = no_slash a && no_slash b.
Proof.
  unfold no_slash. induction a as [ | c a IH ]; [ reflexivity | ].
  rewrite append_String. cbn [list_ascii_of_string forallb].
  rewrite IH. apply andb_assoc.
Qed.

Lemma split_path_no_slash (n : string) :
  no_slash n = true -> split_path n = [n].
Proof.
  unfold no_slash. induction n as [ | c n IH ]; [ reflexivity | ].
  cbn [list_ascii_of_string forallb split_path]. intros H.
  apply andb_prop in H as [Hc Hn]. apply negb_true_iff in Hc.
  rewrite Hc, (IH Hn). reflexivity.
Qed.

Lemma split_path_slash (n q : string) :
  no_slash n = true -> split_path (n +:+ String "/" q) = n :: split_path q.
Proof.
  unfold no_slash. induction n as [ | c n IH ]; [ reflexivity | ].
  rewrite append_String. cbn [list_ascii_of_string forallb split_path]. intros H.
  apply andb_prop in H as [Hc Hn]. apply negb_true_iff in Hc.
  rewrite Hc, (IH Hn). reflexivity.
Qed.

Lemma no_slash_prefix (n : string) :
  no_slash n = true -> String.prefix "/" n = false.
Proof.
  destruct n as [ | c n ]; [ reflexivity | ].
  unfold no_slash. cbn [list_ascii_of_string forallb String.prefix]. intros H.
  apply andb_prop in H as [Hc _]. apply negb_true_iff in Hc.
  destruct (ascii_dec "/" c) as [ <- | _ ]; [ discriminate Hc | reflexivity ].
Qed.

Lemma no_slash_prefix_app (d q : string) :
  String.eqb d "" = false -> no_slash d = true ->
  String.prefix "/" (d +:+ q) = false.
Proof.
  intros Ed Sd. destruct d as [ | c d ]; [ cbv in Ed; discriminate Ed | ].
  rewrite append_String. unfold no_slash in Sd.
  cbn [list_ascii_of_string forallb String.prefix] in *.
  apply andb_prop in Sd as [Hc _]. apply negb_true_iff in Hc.
  destruct (ascii_dec "/" c) as [ <- | _ ]; [ discriminate Hc | reflexivity ].
Qed.

Lemma plain_name_inv (n : string) :
  plain_name n = true ->
  no_slash n = true /\ is_dot n = false /\ String.eqb n ".." = false
  /\ String.eqb n "" = false.
Proof.
  unfold plain_name. intros H.
  apply andb_prop in H as [H H3]. apply andb_prop in H as [H1 H2].
  apply negb_true_iff in H2, H3. repeat split; auto.
  unfold is_dot in H2. apply orb_false_iff in H2 as [H2 _]. exact H2.
Qed.

Lemma plain_not_climbing (d : string) (l : list string) :
  String.eqb d ".." = false -> climbs (d :: l) = false.
Proof.
  intros H. unfold climbs. cbn [forallb]. rewrite String.eqb_sym, H. reflexivity.
Qed.

(** A file in a directory of the working directory: the path
    [d/n] leads to the key [d/n] unless a directory stands there. *)
Lemma open_wb_in_dir (d n : string) (s : FileSystem) :
  plain_name d = true -> plain_name n = true ->
  stat s false [d] = Directory ->
  open_wb (d +:+ String "/" n) s
  = match stat s false [d; n] with
    | Directory => inl (EISDIR (d +:+ String "/" n))
    | _ => inr (d +:+ String "/" n)
    end.
Proof.
  intros Hd Hn Hs.
  destruct (plain_name_inv d Hd) as (Sd & Dd & Ud & Ed).
  destruct (plain_name_inv n Hn) as (Sn & Dn & Un & En).
  unfold open_wb.
  assert (Ep : String.eqb (d +:+ String "/" n) "" = false).
  { destruct d; [ cbv in Ed; discriminate Ed | reflexivity ]. }
  assert (Ea : String.prefix "/" (d +:+ String "/" n) = false).
  { apply no_slash_prefix_app; assumption. }
  rewrite Ep, Ea, (split_path_slash d n Sd), (split_path_no_slash n Sn).
  cbn [strip_trailing]. rewrite En. cbn [removelast walk app].
  rewrite Dd, Ud, Hs. cbn [last length Nat.eqb negb orb].
  rewrite Dn, Un. cbn [orb app].
  destruct (stat s false [d; n]); reflexivity.
Qed.

(** A directory of the working directory, named with or without a slash
    at its end. *)
Lemma makedirs_one (d : string) (slash : bool) (s : FileSystem) :
  plain_name d = true ->
  makedirs (d +:+ (if slash then "/" else "")) s
  = match stat s false [d] with
    | Directory => inr s
    | Missing => inr (add_dir d s)
    | Regular => inl (EEXIST (d +:+ (if slash then "/" else "")))
    end.
Proof.
  intros Hd. destruct (plain_name_inv d Hd) as (Sd & Dd & Ud & Ed).
  unfold makedirs.
  assert (Ep : String.eqb (d +:+ (if slash then "/" else "")) "" = false).
  { destruct d; [ cbv in Ed; discriminate Ed | reflexivity ]. }
  assert (Ea : String.prefix "/" (d +:+ (if slash then "/" else "")) = false).
  { apply no_slash_prefix_app; assumption. }
  rewrite Ep, Ea.
  assert (Es : makedirs_from (d +:+ (if slash then "/" else "")) false []
                 (split_path (d +:+ (if slash then "/" else ""))) s
               = makedirs_from (d +:+ (if slash then "/" else "")) false []
                   [d] s).
  { destruct slash.
    - rewrite (split_path_slash d "" Sd). cbn [split_path makedirs_from app].
      rewrite Dd, Ud. cbn [is_dot String.eqb orb forallb andb].
      destruct (stat s false [d]); reflexivity.
    - assert (E : d +:+ "" = d).
      { clear. induction d as [ | c d IH ]; [ reflexivity | ].
        rewrite append_String, IH. reflexivity. }
      rewrite E, (split_path_no_slash d Sd). reflexivity. }
  rewrite Es. cbn [makedirs_from app]. rewrite Dd, Ud. cbn [forallb].
  assert (Ek : path_key false [d] = d) by reflexivity.
  rewrite Ek. destruct (stat s false [d]); reflexivity.
Qed.

Lemma stat_add_dir_same (d : string) (s : FileSystem) :
  stat (add_dir d s) false [d] = Directory.
Proof.
  unfold stat. destruct (climbs [d]); [ reflexivity | ].
  assert (Ek : path_key false [d] = d) by reflexivity. rewrite Ek.
  rewrite bool_decide_eq_true_2; [ reflexivity | ].
  unfold add_dir. cbn [dirs]. set_solver.
Qed.

Lemma child_is_not_parent (d n : string) : d +:+ String "/" n <> d.
Proof.
  induction d as [ | c d IH ]; [ discriminate | ].
  rewrite append_String. intros H. inversion H. auto.
Qed.

Lemma stat_add_dir_child (d n : string) (s : FileSystem) :
  stat (add_dir d s) false [d; n] = stat s false [d; n].
Proof.
  unfold stat. destruct (climbs [d; n]); [ reflexivity | ].
  assert (Ek : path_key false [d; n] = d +:+ String "/" n) by reflexivity.
  rewrite Ek. unfold add_dir. cbn [dirs files].
  pose proof (child_is_not_parent d n) as Hne.
  destruct (bool_decide (d +:+ String "/" n ∈ dirs s)) eqn:E.
  - apply bool_decide_eq_true in E.
    rewrite bool_decide_eq_true_2 by set_solver. reflexivity.
  - apply bool_decide_eq_false in E.
    rewrite bool_decide_eq_false_2 by set_solver. reflexivity.
Qed.

(** [os.makedirs] creates directories and nothing else. *)
Lemma makedirs_from_grows (name : string) (absolute : bool)
      (comps loc : list string) (s s' : FileSystem) :
  makedirs_from name absolute loc comps s = inr s' ->
  files s' = files s /\ dirs s ⊆ dirs s'.
Proof.
  revert loc s. induction comps as [ | c rest IH ]; intros loc s; cbn [makedirs_from].
  - intros H. inversion H. auto.
  - destruct (is_dot c); [ apply IH | ].
    destruct (String.eqb c ".."); [ apply IH | ].
    destruct (stat s absolute (loc ++ [c])); [ apply IH | discriminate | ].
    intros H. apply IH in H as [Hf Hd]. split; [ exact Hf | ].
    unfold add_dir in Hd. cbn [dirs] in Hd. set_solver.
Qed.

Lemma makedirs_grows (name : string) (s s' : FileSystem) :
  makedirs name s = inr s' -> files s' = files s /\ dirs s ⊆ dirs s'.
Proof.
  unfold makedirs. destruct (String.eqb name ""); [ discriminate | ].
  apply makedirs_from_grows.
Qed.

(** ** Saving *)

(** [save_audio] step by step. *)
Lemma save_audio_eq (a : list frame) (filename : string) (w : World) :
  save_audio a filename w =
  match makedirs SAVE_PATH (fs w) with
  | inl e => (w, Raise (Exc e))
  | inr s1 =>
      match open_wb (os_path_join SAVE_PATH filename) s1 with
      | inl e => (set_fs (fun _ => s1) w, Raise (Exc e))
      | inr key =>
          (set_fs (fun _ => write_file key (gunshot_file a) s1) w,
           Ok (os_path_join SAVE_PATH filename))
      end
  end.
Proof.
  unfold save_audio, os_makedirs, wave_open. rewrite bind_eq.
  destruct (makedirs SAVE_PATH (fs w)) as [ e | s1 ]; [ reflexivity | ].
  cbv zeta. rewrite bind_eq. cbn [fs set_fs].
  destruct (open_wb (os_path_join SAVE_PATH filename) s1) as [ e | key ];
    [ reflexivity | ].
  unfold modify, set_fs, write_file, gunshot_file. cbn.
  rewrite insert_insert_eq. reflexivity.
Qed.

Lemma os_path_join_plain (filename : string) :
  no_slash filename = true ->
  os_path_join SAVE_PATH filename = SAVE_PATH +:+ filename.
Proof.
  intros H. unfold os_path_join. rewrite (no_slash_prefix _ H). reflexivity.
Qed.

(** For a plain file name, [save_audio] succeeds exactly when the file
    system accepts the file, and then writes it under
    [recordings/<name>]. *)
Lemma save_audio_plain (a : list frame) (filename : string) (w : World) :
  plain_name filename = true ->
  if accepts (fs w) "recordings" filename
  then exists s1,
         makedirs SAVE_PATH (fs w) = inr s1
         /\ save_audio a filename w
            = (set_fs (fun _ => write_file (SAVE_PATH +:+ filename)
                                  (gunshot_file a) s1) w,
               Ok (SAVE_PATH +:+ filename))
  else exists w' e,
         save_audio a filename w = (w', Raise (Exc e))
         /\ files (fs w') = files (fs w).
Proof.
  intros Hn. destruct (plain_name_inv filename Hn) as (Sn & _).
  rewrite save_audio_eq, (os_path_join_plain _ Sn).
  pose proof (makedirs_one "recordings" true (fs w) eq_refl) as Hm.
  cbv iota in Hm. change ("recordings" +:+ "/") with SAVE_PATH in Hm.
  rewrite Hm. clear Hm.
  change (SAVE_PATH +:+ filename) with ("recordings" +:+ String "/" filename).
  unfold accepts.
  destruct (stat (fs w) false ["recordings"]) eqn:E1.
  - rewrite (open_wb_in_dir "recordings" filename (fs w) eq_refl Hn E1).
    destruct (stat (fs w) false ["recordings"; filename]).
    + eexists _, _. split; reflexivity.
    + eexists. split; reflexivity.
    + eexists. split; reflexivity.
  - eexists _, _. split; reflexivity.
  - rewrite (open_wb_in_dir "recordings" filename
               (add_dir "recordings" (fs w)) eq_refl Hn (stat_add_dir_same _ _)).
    rewrite stat_add_dir_child.
    destruct (stat (fs w) false ["recordings"; filename]).
    + eexists _, _. split; reflexivity.
    + eexists. split; reflexivity.
    + eexists. split; reflexivity.
Qed.

Lemma tobytes_length (a : list frame) :
  length (tobytes a) = (4 * length (concat a))%nat.
Proof.
  unfold tobytes. induction (concat a) as [ | x l IH ]; [ reflexivity | ].
  cbn [map concat]. rewrite length_app, IH. cbn [f32_bytes length]. lia.
Qed.

(** The file [save_audio] writes for a window of [N] mono frames announces
    two bytes per sample and holds four: a reader counts [2 * N] frames. *)
Lemma gunshot_file_nframes (a : list frame) :
  Forall (fun f => length f = 1%nat) a ->
  wav_nframes (gunshot_file a) = (2 * Z.of_nat (length a))%Z.
Proof.
  intros H. unfold wav_nframes, gunshot_file. cbn [wav_data wav_nchannels wav_sampwidth].
  rewrite tobytes_length.
  assert (E : length (concat a) = length a).
  { induction H as [ | f a Hf _ IH ]; [ reflexivity | ].
    cbn [concat]. rewrite length_app, Hf, IH. reflexivity. }
  rewrite E. change (1 * 2)%Z with 2%Z.
  replace (Z.of_nat (4 * length a)) with (2 * Z.of_nat (length a) * 2)%Z by lia.
  apply Z.div_mul. lia.
Qed.

(** ** The name of the file *)







Lemma is_digit_digit (n : nat) : is_digit (digit n) = true.
Proof.
  unfold digit.
  assert (H : (n mod 10 < 10)%nat) by (apply Nat.mod_upper_bound; lia).
  destruct (n mod 10) as [ | k ]; [ reflexivity | ].
  do 9 (destruct k as [ | k ]; [ reflexivity | ]). lia.
Qed.


(** ** The names the program gives its files *)

Lemma digit_not_slash (n : nat) : Ascii.eqb (digit n) "/" = false.
Proof.
  destruct (Ascii.eqb_spec (digit n) "/") as [ E | _ ]; [ | reflexivity ].
  pose proof (is_digit_digit n) as H. rewrite E in H. discriminate H.
Qed.

Lemma no_slash_String (c : ascii) (s : string) :
  no_slash (String c s) = negb (Ascii.eqb c "/") && no_slash s.
Proof. reflexivity. Qed.

Lemma no_slash_dec_go (fuel n : nat) (acc : string) :
  no_slash acc = true -> no_slash (dec_go fuel n acc) = true.
Proof.
  revert n acc. induction fuel as [ | fuel IH ]; intros n acc H; cbn [dec_go].
  - exact H.
  - assert (H' : no_slash (String (digit n) acc) = true).
    { rewrite no_slash_String, digit_not_slash, H. reflexivity. }
    destruct (n / 10 =? 0)%nat; [ exact H' | apply IH, H' ].
Qed.

Lemma no_slash_dec (n : nat) : no_slash (dec n) = true.
Proof. apply no_slash_dec_go. reflexivity. Qed.

Lemma no_slash_zfill (k : nat) (s : string) :
  no_slash s = true -> no_slash (zfill k s) = true.
Proof.
  intros H. unfold zfill. rewrite no_slash_app, H, andb_true_r.
  induction (k - String.length s)%nat as [ | j IH ]; [ reflexivity | ].
  cbn [zeros]. rewrite no_slash_String, IH. reflexivity.
Qed.

Lemma no_slash_strftime (t : datetime) : no_slash (strftime t) = true.
Proof.
  unfold strftime.
  rewrite !no_slash_app, !no_slash_zfill by apply no_slash_dec.
  rewrite no_slash_dec. reflexivity.
Qed.

(** A name that starts with a letter and is made of a prefix without
    slash, the clock and [.wav] is a plain file name. *)
Lemma stamped_name_plain (c : ascii) (pre : string) (t : datetime) :
  Ascii.eqb c "." = false -> no_slash (String c pre) = true ->
  plain_name (String c pre +:+ strftime t +:+ ".wav") = true.
Proof.
  intros Hc Hp. unfold plain_name.
  rewrite !no_slash_app, Hp, no_slash_strftime.
  rewrite append_String. unfold is_dot. cbn [String.eqb].
  rewrite Hc. reflexivity.
Qed.

Lemma gunshot_name_plain (t : datetime) :
  plain_name ("gunshot_" +:+ strftime t +:+ ".wav") = true.
Proof. apply (stamped_name_plain "g" "unshot_" t); reflexivity. Qed.

(** ** The decision *)

Section DecisionProofs.

Variable detect : list frame -> Z -> M qfloat.

(** Once the window is recorded and scored, what is left of the pass is
    the threshold test. *)
Lemma window_scored (rd : Round) (w w1 w2 : World) (a : list frame) (p : qfloat) :
  record (driver rd) DURATION w = (w1, Ok a) ->
  np_values a <> [] ->
  detect a SAMPLE_RATE w1 = (w2, Ok p) ->
  window detect rd w =
  (if fgt p (Fin (2 # 10))
   then
     (filepath <- save_audio a ("gunshot_" +:+ strftime (now rd) +:+ ".wav") ;;
      say (LogProbability (String LF "Gunshot detected! (Probability: ") p
             (") Saved to " +:+ filepath)))
   else ret tt) (emit (PrintProbability p) w2).
Proof.
  intros Hr Ha Hd. unfold window.
  rewrite bind_eq, Hr.
  destruct (np_min_values_ok _ Ha) as (v1 & E1).
  destruct (np_max_values_ok _ Ha) as (v2 & E2).
  rewrite bind_eq. unfold lift at 1. rewrite E1.
  rewrite bind_eq. unfold lift at 1. rewrite E2.
  rewrite bind_eq, Hd. rewrite bind_eq. reflexivity.
Qed.


End DecisionProofs.

(* ===================================================================== *)
(** * The program on concrete situations *)
(* ===================================================================== *)

Lemma record_fine_boot :
  record fine DURATION boot = (fst (record fine DURATION boot), Ok three_frames).
Proof.
  rewrite (surjective_pairing (record fine DURATION boot)) at 1.
  f_equal; vm_compute; reflexivity.
Qed.


Lemma three_frames_have_samples : np_values three_frames <> [].
Proof. intros H. vm_compute in H. discriminate H. Qed.








(** C1 on the code.  The default microphone runs at 48000 Hz.  The
    constructor notes the rate in the global [LOCAL_SAMPLE_RATE], which
    nothing reads: the stream of the next window is opened at 44100, the
    classifier (here one that answers with the rate it is given) is called
    with 44100, and the header of the file written says 44100. *)
Theorem device_rate_is_not_adopted :
  let w := fst ((AudioRecorder_init mic_48k ;;
                 iteration echo_rate {| driver := fine; now := noon |}) boot) in
  LOCAL_SAMPLE_RATE w = Some 48000%Z
  /\ map samplerate (streams w) = [44100%Z]
  /\ printed_scores (output w) = [Fin (inject_Z 44100)]
  /\ wav_framerate <$> (files (fs w) !! "recordings/gunshot_20240309_120000.wav")
     = Some 44100%Z.
Proof.
  cbv zeta. repeat split; vm_compute; reflexivity.
Qed.

(** C2 on the code.  [save_audio] creates the directory and writes a file
    whose header says mono, two bytes per sample, 44100 Hz; its data are
    the twelve bytes of the three float32 samples as they are in memory,
    so that the file holds six frames for a window of three samples. *)
Theorem save_audio_writes_raw_floats :
  let w := fst (save_audio three_frames "gunshot_20240309_120000.wav" boot) in
  "recordings" ∈ dirs (fs w)
  /\ exists f,
      files (fs w) !! "recordings/gunshot_20240309_120000.wav" = Some f
      /\ wav_nchannels f = 1%Z
      /\ wav_sampwidth f = 2%Z
      /\ wav_framerate f = 44100%Z
      /\ wav_data f = [0; 0; 0; 63; 0; 0; 128; 190; 0; 0; 0; 62]%Z
      /\ length three_frames = 3%nat
      /\ wav_nframes f = 6%Z.
Proof.
  cbv zeta.
  assert (E : save_audio three_frames "gunshot_20240309_120000.wav" boot
              = (set_fs (fun _ =>
                   write_file "recordings/gunshot_20240309_120000.wav"
                     (gunshot_file three_frames)
                     (add_dir "recordings" (fs boot))) boot,
                 Ok "recordings/gunshot_20240309_120000.wav")).
  { pose proof (save_audio_plain three_frames "gunshot_20240309_120000.wav"
                  boot eq_refl) as H.
    change (accepts (fs boot) "recordings" "gunshot_20240309_120000.wav")
      with true in H.
    destruct H as (s1 & Hm & H). rewrite H.
    assert (Es : makedirs SAVE_PATH (fs boot) = inr (add_dir "recordings" (fs boot)))
      by reflexivity.
    rewrite Es in Hm. inversion Hm. reflexivity. }
  rewrite E. cbn [fst fs set_fs write_file add_dir dirs files]. split.
  - apply elem_of_union_l, elem_of_singleton. reflexivity.
  - exists (gunshot_file three_frames).
    split; [ apply lookup_insert_eq | ].
    repeat split; vm_compute; reflexivity.
Qed.

(* ===================================================================== *)
(** * The gauge *)
(* ===================================================================== *)

Lemma int_real_nonneg (x : R) : (0 <= x)%R -> int_real x = Int_part x.
Proof.
  intros H. unfold int_real. destruct (ltb x 0%R) eqn:E; [ | reflexivity ].
  apply R_ltb_spec in E. lra.
Qed.

Lemma Int_part_lower (x : R) (a : Z) : (IZR a <= x)%R -> (a <= Int_part x)%Z.
Proof.
  intros H1. destruct (base_Int_part x) as [B1 B2].
  assert (H : (IZR a < IZR (Int_part x) + 1)%R) by lra.
  rewrite <- plus_IZR in H. apply lt_IZR in H. lia.
Qed.

Lemma Int_part_upper (x : R) (b : Z) : (x < IZR b + 1)%R -> (Int_part x <= b)%Z.
Proof.
  intros H2. destruct (base_Int_part x) as [B1 B2].
  assert (H : (IZR (Int_part x) < IZR b + 1)%R) by lra.
  rewrite <- plus_IZR in H. apply lt_IZR in H. lia.
Qed.

Lemma Int_part_IZR (n : Z) : Int_part (IZR n) = n.
Proof.
  pose proof (Int_part_lower (IZR n) n). pose proof (Int_part_upper (IZR n) n).
  assert (n <= Int_part (IZR n))%Z by (apply H; lra).
  assert (Int_part (IZR n) <= n)%Z by (apply H0; lra).
  lia.
Qed.

Lemma Int_part_mono (x y : R) : (x <= y)%R -> (Int_part x <= Int_part y)%Z.
Proof.
  intros H. destruct (base_Int_part x) as [B1 B2].
  apply Int_part_lower. lra.
Qed.

Lemma int_real_mono (x y : R) : (x <= y)%R -> (int_real x <= int_real y)%Z.
Proof.
  intros H. unfold int_real.
  destruct (ltb x 0%R) eqn:Ex, (ltb y 0%R) eqn:Ey.
  - apply R_ltb_spec in Ex, Ey.
    assert (Int_part (- y) <= Int_part (- x))%Z by (apply Int_part_mono; lra). lia.
  - apply R_ltb_spec in Ex. apply R_ltb_false in Ey.
    assert (0 <= Int_part (- x))%Z by (apply Int_part_lower; lra).
    assert (0 <= Int_part y)%Z by (apply Int_part_lower; lra).
    lia.
  - apply R_ltb_false in Ex. apply R_ltb_spec in Ey. lra.
  - apply Int_part_mono, H.
Qed.

Lemma int_real_lower (x : R) (a : Z) :
  (0 <= a)%Z -> (IZR a <= x)%R -> (a <= int_real x)%Z.
Proof.
  intros Ha H. assert (0 <= IZR a)%R by (apply IZR_le, Ha).
  rewrite int_real_nonneg by lra. apply Int_part_lower, H.
Qed.

Lemma int_real_upper (x : R) (b : Z) :
  (0 <= b)%Z -> (x < IZR b + 1)%R -> (int_real x <= b)%Z.
Proof.
  intros Hb H. unfold int_real. destruct (ltb x 0%R) eqn:E.
  - apply R_ltb_spec in E.
    assert (0 <= Int_part (- x))%Z by (apply Int_part_lower; lra). lia.
  - apply Int_part_upper, H.
Qed.

Lemma string_app_length (s t : string) :
  String.length (s +:+ t) = (String.length s + String.length t)%nat.
Proof.
  induction s as [ | c s IH ]; [ reflexivity | ].
  change (String c s +:+ t) with (String c (s +:+ t)).
  cbn [String.length]. rewrite IH. reflexivity.
Qed.

Lemma str_repeat_length (c : ascii) (n : nat) :
  String.length (str_repeat (String c "") n) = n.
Proof.
  induction n as [ | n IH ]; [ reflexivity | ].
  cbn [str_repeat]. rewrite string_app_length, IH. reflexivity.
Qed.

Lemma meter_level_scaled (db : R) :
  meter_level db = int_real ((db + 60) * (2 / 3))%R.
Proof. unfold meter_level, METER_WIDTH. f_equal. lra. Qed.

Lemma meter_level_range (db : R) :
  (-60 <= db <= 0)%R -> (0 <= meter_level db <= METER_WIDTH)%Z.
Proof.
  intros H. rewrite meter_level_scaled. unfold METER_WIDTH. split.
  - apply int_real_lower; [ lia | lra ].
  - apply int_real_upper; [ lia | lra ].
Qed.

Lemma meter_length (db : R) :
  (-60 <= db <= 0)%R -> String.length (meter db) = 40%nat.
Proof.
  intros H. pose proof (meter_level_range db H) as L. unfold METER_WIDTH in L.
  unfold meter, str_mul. rewrite string_app_length, !str_repeat_length.
  unfold METER_WIDTH. lia.
Qed.

(** X1.  Whatever the block, the level the callback computes is a number
    and the gauge it draws for it has exactly forty segments, of which
    between none and forty are full. *)
Theorem callback_gauge_has_forty_segments (indata : list frame) :
  exists db,
    calculate_db indata = Ok (Fin db)
    /\ (0 <= meter_level db <= METER_WIDTH)%Z
    /\ String.length (meter db) = 40%nat.
Proof.
  destruct (calculate_db_total indata) as (r & E & Hr).
  exists r. split; [ exact E | ].
  split; [ apply meter_level_range, Hr | apply meter_length, Hr ].
Qed.

(** X2.  The gauge grows with the level: it is empty at [DB_MIN], full at
    [DB_MAX], and between the two a louder level never shows fewer full
    segments. *)
Theorem gauge_grows_with_level (a b : R) :
  (-60 <= a)%R -> (a <= b)%R -> (b <= 0)%R ->
  meter_level (-60) = 0%Z
  /\ (meter_level (-60) <= meter_level a <= meter_level b)%Z
  /\ (meter_level b <= meter_level 0)%Z
  /\ meter_level 0 = 40%Z.
Proof.
  intros H1 H2 H3. rewrite !meter_level_scaled.
  assert (E0 : int_real ((-60 + 60) * (2 / 3)) = 0%Z).
  { replace ((-60 + 60) * (2 / 3))%R with (IZR 0) by lra.
    rewrite int_real_nonneg by lra. apply Int_part_IZR. }
  assert (E1 : int_real ((0 + 60) * (2 / 3)) = 40%Z).
  { replace ((0 + 60) * (2 / 3))%R with (IZR 40) by lra.
    rewrite int_real_nonneg by lra. apply Int_part_IZR. }
  split; [ exact E0 | ]. split; [ split | split; [ | exact E1 ] ];
    apply int_real_mono; lra.
Qed.

Lemma gauge_grows_with_level_witness :
  meter_level (-60) = 0%Z
  /\ (meter_level (-60) <= meter_level (-30) <= meter_level (-10))%Z
  /\ (meter_level (-10) <= meter_level 0)%Z
  /\ meter_level 0 = 40%Z.
Proof. apply (gauge_grows_with_level (-30) (-10)); lra. Defined.

(** X3.  The colour of the line agrees with the gauge: a red line (above
    -10 dB) shows at least 33 full segments, a yellow one (above -20 dB)
    between 26 and 33, a green one at most 26. *)
Theorem colour_agrees_with_gauge (db : R) :
  match meter_colour db with
  | red => (33 <= meter_level db)%Z
  | yellow => (26 <= meter_level db <= 33)%Z
  | green => (meter_level db <= 26)%Z
  end.
Proof.
  unfold meter_colour. rewrite meter_level_scaled.
  destruct (ltb (-10)%R db) eqn:E1.
  - apply R_ltb_spec in E1. apply int_real_lower; [ lia | lra ].
  - apply R_ltb_false in E1. destruct (ltb (-20)%R db) eqn:E2.
    + apply R_ltb_spec in E2. split.
      * apply int_real_lower; [ lia | lra ].
      * apply int_real_upper; [ lia | lra ].
    + apply R_ltb_false in E2. apply int_real_upper; [ lia | lra ].
Qed.

(* ===================================================================== *)
(** * The level of blocks that hold NaN or an infinity *)
(* ===================================================================== *)

Lemma fold_fadd_NaN (l : list qfloat) : fold_left fadd l NaN = NaN.
Proof. induction l as [ | v l IH ]; [ reflexivity | exact IH ]. Qed.

Lemma np_sum_NaN (l : list qfloat) (acc : qfloat) :
  In NaN l -> fold_left fadd l acc = NaN.
Proof.
  revert acc. induction l as [ | v l IH ]; intros acc H; [ destruct H | ].
  destruct H as [-> | H]; cbn [fold_left].
  - destruct acc; apply fold_fadd_NaN.
  - apply IH, H.
Qed.

Lemma In_np_square_NaN (l : list qfloat) : In NaN l -> In NaN (np_square l).
Proof. intros H. apply (in_map fsquare) in H. exact H. Qed.

(** The sum of squares of which none is NaN and one is infinite. *)
Lemma np_sum_Inf (l : list qfloat) (acc : qfloat) :
  ~ In NaN l ->
  (acc = Inf false \/ ((exists q, acc = Fin q) /\ exists s, In (Inf s) l)) ->
  fold_left fadd (np_square l) acc = Inf false.
Proof.
  revert acc. induction l as [ | v l IH ]; intros acc Hn H.
  - destruct H as [-> | [_ [s []]]]. reflexivity.
  - cbn [np_square map fold_left]. apply IH.
    + intros Hl. apply Hn. right. exact Hl.
    + destruct v as [ | s | x ]; [ exfalso; apply Hn; left; reflexivity | | ].
      * left. destruct H as [-> | [[q ->] _]]; reflexivity.
      * destruct H as [-> | [[q ->] [s [Hs | Hs]]]];
          [ left; reflexivity | discriminate Hs | ].
        right. split; [ eexists; reflexivity | exists s; exact Hs ].
Qed.

Lemma clamp_DB_MAX : py_max (py_min (Inf false) DB_MAX) DB_MIN = DB_MAX.
Proof.
  unfold py_max, py_min, fgt, DB_MAX, DB_MIN. simpl.
  destruct (ltb 0%R (-60)%R) eqn:E; [ | reflexivity ].
  apply R_ltb_spec in E. lra.
Qed.

(** X4.  A block in which a sample is NaN reads as silence, [DB_MIN]; a
    block without NaN in which a sample is infinite reads [DB_MAX]. *)
Theorem calculate_db_of_nan_and_infinity (audio_data : list frame) :
  (In NaN (np_values audio_data) -> calculate_db audio_data = Ok DB_MIN)
  /\ (~ In NaN (np_values audio_data) ->
      (exists s, In (Inf s) (np_values audio_data)) ->
      calculate_db audio_data = Ok DB_MAX).
Proof.
  unfold calculate_db. split.
  - intros H. destruct (length audio_data =? 0)%nat; [ reflexivity | ].
    apply In_np_square_NaN in H.
    unfold np_mean. destruct (np_square (np_values audio_data)) as [ | v l ] eqn:E;
      [ destruct H | ].
    unfold np_sum. rewrite (np_sum_NaN (v :: l) _ H).
    cbn [fdiv np_sqrt]. unfold fgt. cbn [flt bind result_Monad].
    rewrite clamp_DB_MIN. reflexivity.
  - intros Hn [s Hs].
    destruct (length audio_data =? 0)%nat eqn:El.
    { apply Nat.eqb_eq in El. destruct audio_data; [ destruct Hs | discriminate El ]. }
    unfold np_mean, np_sum.
    rewrite (np_sum_Inf (np_values audio_data) (Fin 0%Q) Hn)
      by (right; split; [ eexists; reflexivity | exists s; exact Hs ]).
    destruct (np_square (np_values audio_data)) as [ | v l ] eqn:E.
    { destruct (np_values audio_data); [ destruct Hs | discriminate E ]. }
    unfold fdiv.
    assert (Hp : ltb (inject_Z (Z.of_nat (length (v :: l)))) 0%Q = false).
    { unfold ltb, Q_ltb. apply negb_false_iff, Qle_bool_iff.
      unfold Qle. simpl. lia. }
    rewrite Hp. cbn [xorb np_sqrt]. unfold fgt.
    cbn [flt math_log10 bind result_Monad fscale].
    rewrite clamp_DB_MAX. reflexivity.
Qed.

(** A block of one NaN; a block of one infinite sample and the sample 0.5. *)
Lemma calculate_db_of_nan_and_infinity_witness :
  calculate_db [[0x7fc00000%Z]] = Ok DB_MIN
  /\ calculate_db [[0x7f800000%Z]; [0x3f000000%Z]] = Ok DB_MAX.
Proof.
  split.
  - apply (proj1 (calculate_db_of_nan_and_infinity [[0x7fc00000%Z]])).
    vm_compute. left. reflexivity.
  - apply (proj2 (calculate_db_of_nan_and_infinity [[0x7f800000%Z]; [0x3f000000%Z]])).
    + vm_compute. intros [H | [H | []]]; discriminate H.
    + exists false. vm_compute. left. reflexivity.
Defined.

(* ===================================================================== *)
(** * The streams *)
(* ===================================================================== *)

Lemma quiet_existsb (ss : list InputStream) : quiet ss -> existsb is_active ss = false.
Proof.
  induction 1 as [ | x ss Hx _ IH ]; [ reflexivity | ].
  cbn [existsb]. rewrite Hx, IH. reflexivity.
Qed.

(** Closing the one stream that may run leaves none running. *)
Lemma close_held (ss : list InputStream) (h : nat) :
  (forall i x, ss !! i = Some x -> is_active x = true -> h = i) ->
  quiet (alter (set_status Closed) h (alter (set_status Stopped) h ss)).
Proof.
  revert h. induction ss as [ | y ss IH ]; intros h H.
  - constructor.
  - destruct h as [ | h ]; cbn.
    + constructor; [ reflexivity | ].
      apply Forall_forall. intros x Hx.
      destruct (is_active x) eqn:E; [ | reflexivity ].
      apply list_elem_of_lookup in Hx. destruct Hx as [i Hi].
      specialize (H (S i) x Hi E). discriminate.
    + constructor.
      * destruct (is_active y) eqn:E; [ | reflexivity ].
        specialize (H 0%nat y eq_refl E). discriminate.
      * apply IH. intros i x Hi E. specialize (H (S i) x Hi E). congruence.
Qed.

Lemma quiet_of_one_running (ss : list InputStream) (held : option nat) :
  (forall i x, ss !! i = Some x -> is_active x = true -> held = Some i) ->
  match held with
  | Some h => match ss !! h with Some x => is_active x | None => false end
  | None => false
  end = false ->
  quiet ss.
Proof.
  intros H Hh. apply Forall_forall. intros x Hx.
  destruct (is_active x) eqn:E; [ | reflexivity ].
  apply list_elem_of_lookup in Hx. destruct Hx as [i Hi].
  rewrite (H i x Hi E), Hi, E in Hh. discriminate.
Qed.

Lemma one_running_last (ss : list InputStream) (x : InputStream) (w : World) :
  quiet ss -> streams w = ss ++ [x] -> stream (recorder w) = Some (length ss) ->
  one_running w.
Proof.
  unfold quiet. intros HS Hs Hh i y Hi Ey. rewrite Hs in Hi. rewrite Hh. f_equal.
  destruct (Nat.lt_trichotomy i (length ss)) as [Hlt | [-> | Hgt]].
  - rewrite lookup_app_l in Hi by exact Hlt.
    rewrite Forall_forall in HS. rewrite HS in Ey; [ discriminate | ].
    apply list_elem_of_lookup. eauto.
  - reflexivity.
  - rewrite lookup_ge_None_2 in Hi; [ discriminate | ].
    rewrite length_app. simpl. lia.
Qed.

Lemma one_running_quiet (w : World) : quiet (streams w) -> one_running w.
Proof.
  unfold quiet. intros H i x Hi E.
  rewrite Forall_forall in H. rewrite H in E; [ discriminate | ].
  apply list_elem_of_lookup. eauto.
Qed.

Lemma one_running_stream_fields (w w' : World) :
  streams w' = streams w -> stream (recorder w') = stream (recorder w) ->
  one_running w -> one_running w'.
Proof. unfold one_running. intros -> ->. auto. Qed.

(** [_initialize_stream] from a state where only the held stream may run:
    it never raises an [Exception]; when it answers [True] every earlier
    stream is at rest and the recorder holds the new one; otherwise the
    recorder is as before and still only the held stream may run. *)
Lemma initialize_stream_outcome (d : Driver) (w : World) :
  one_running w ->
  match _initialize_stream d w with
  | (w1, Ok true) =>
      exists ss out,
        quiet ss
        /\ w1 = {| streams := ss ++ [fresh_stream];
                   recorder := set_stream (Some (length ss)) (recorder w);
                   LOCAL_SAMPLE_RATE := LOCAL_SAMPLE_RATE w;
                   fs := fs w;
                   output := out |}
  | (w1, Ok false) =>
      one_running w1 /\ recorder w1 = recorder w /\ fs w1 = fs w
      /\ (stop_error d = None -> quiet (streams w1))
  | (w1, Raise r) =>
      r = KeyboardInterrupt
      /\ one_running w1 /\ recorder w1 = recorder w /\ fs w1 = fs w
      /\ (stop_error d = None -> quiet (streams w1))
  end.
Proof.
  intros Inv.
  destruct w as [ss [s buf isrec cdb] loc f out0].
  unfold one_running in Inv. cbn [streams recorder stream] in Inv.
  unfold _initialize_stream. run.
  destruct s as [h | ]; [ destruct (ss !! h) as [x | ] eqn:Eh | ];
    [ destruct (is_active x) eqn:Ex | | ].
  all: destruct (stop_error d) as [[e1 | ] | ];
       destruct (open_error d) as [[e2 | ] | ]; run.
  all: repeat match goal with
         | |- _ /\ _ => split
         | |- _ = _ => reflexivity
         | |- exists ss out, _ => eexists _, _; split; [ | reflexivity ]
         | |- Some _ = None -> _ => discriminate
         | |- None = None -> _ => intros _; cbn [streams]
         end.
  all: try (intros i y Hi Ey; cbn [streams recorder stream] in *;
            apply (Inv i y Hi Ey)).
  all: try (apply one_running_quiet; cbn [streams]).
  all: try (apply close_held; intros i y Hi Ey;
            specialize (Inv i y Hi Ey); congruence).
  all: try (apply (quiet_of_one_running ss (Some h));
            [ exact Inv | cbn; rewrite ?Eh, ?Ex; reflexivity ]).
  all: try (apply (quiet_of_one_running ss None); [ exact Inv | reflexivity ]).
Qed.

Ltac init_step Inv :=
  match goal with
  | |- context [_initialize_stream ?d' ?W] =>
      let Hi := fresh "Hi" in
      assert (Hi : one_running W)
        by (refine (one_running_stream_fields _ _ _ _ Inv); reflexivity);
      apply (initialize_stream_outcome d') in Hi;
      destruct (_initialize_stream d' W) as [w1 [[ | ] | r]]
  end.

(** [record] keeps the streams in order: if only the held stream may run
    before the call, the same holds after it, however the call ends; and
    unless [stop] itself fails, no stream at all is left running. *)
Lemma record_streams (d : Driver) (duration : Z) (w : World) :
  one_running w ->
  one_running (fst (record d duration w))
  /\ (stop_error d = None -> quiet (streams (fst (record d duration w)))).
Proof.
  intros Inv.
  destruct w as [ss [s buf isrec cdb] loc f out0].
  unfold record. run. fire_step. run.
  destruct (existsb is_active ss).
  all: init_step Inv.
  all: try (destruct Hi as (ss' & out' & Hq & ->)).
  all: try (destruct Hi as (-> & Hi)).
  all: try (destruct Hi as (H1 & H2 & H3 & H4); run; split; [ exact H1 | exact H4 ]).
  all: destruct (start_error d) as [ [ e1 | ] | ];
       destruct (sleep_error d) as [ [ e2 | ] | ];
       destruct (stop_error d) as [ [ e3 | ] | ].
  all: repeat first
         [ rewrite alter_last
         | rewrite lookup_last
         | rewrite running_last by reflexivity
         | fire_step
         | progress run
         | progress cbv beta iota delta
             [is_active set_status status fresh_stream] ].
  all: split;
       [ eapply one_running_last; [ exact Hq | reflexivity | reflexivity ] | ].
  all: try discriminate.
  all: intros _; cbn [streams]; apply Forall_app_2;
       [ exact Hq | repeat constructor ].
Qed.

(** X5.  [_initialize_stream] never raises an [Exception].  When it
    answers [True] the stream could be opened and the recorder holds a new
    stream, mono at 44100 Hz in blocks of 4410 frames, open and not yet
    started; when it answers [False] opening or stopping failed with an
    [Exception] and the recorder holds what it held. *)
Theorem initialize_stream_never_raises (d : Driver) (w : World) :
  match _initialize_stream d w with
  | (w1, Ok true) =>
      open_error d = None
      /\ held_stream w1 = Some fresh_stream
      /\ length (streams w1) = S (length (streams w))
  | (w1, Ok false) =>
      ((exists e, open_error d = Some (Exc e))
       \/ (exists e, stop_error d = Some (Exc e)))
      /\ recorder w1 = recorder w
  | (w1, Raise r) => r = KeyboardInterrupt
  end.
Proof.
  destruct w as [ss [s buf isrec cdb] loc f out0].
  unfold _initialize_stream, held_stream. run.
  destruct s as [h | ]; [ destruct (ss !! h) as [x | ] | ];
    [ unfold is_active; destruct (status x) | | ];
    destruct (stop_error d) as [[e1 | ] | ] eqn:E1;
    destruct (open_error d) as [[e2 | ] | ] eqn:E2; run.
  all: repeat match goal with
         | |- _ /\ _ => split
         | |- _ = _ => reflexivity
         | |- (exists e, Some (Exc ?x) = Some (Exc e)) \/ _ => left; exists x; reflexivity
         | |- _ \/ (exists e, Some (Exc ?x) = Some (Exc e)) => right; exists x; reflexivity
         end.
  all: cbn [streams recorder stream]; try apply lookup_last.
  all: rewrite ?length_app, ?length_alter; cbn [length]; lia.
Qed.

(** X6.  [record] keeps the streams in order: if only the stream the
    recorder holds may be running before the call, the same is true after
    it, however the call ends; and unless [stop] itself fails, no stream
    at all is left running. *)
Theorem record_leaves_no_other_stream_running
    (d : Driver) (duration : Z) (w : World) :
  one_running w ->
  one_running (fst (record d duration w))
  /\ (stop_error d = None -> quiet (streams (fst (record d duration w)))).
Proof. apply record_streams. Qed.

Lemma one_running_boot : one_running boot.
Proof. intros i x Hi. discriminate Hi. Qed.

Lemma record_leaves_no_other_stream_running_witness :
  one_running (fst (record stuck_start DURATION boot))
  /\ (stop_error stuck_start = None ->
      quiet (streams (fst (record stuck_start DURATION boot)))).
Proof.
  apply (record_leaves_no_other_stream_running stuck_start DURATION boot).
  exact one_running_boot.
Defined.

(** X7.  When the stream opens, starts and stops without error, then
    however the capture interval ends, normally or by any raise, a
    [KeyboardInterrupt] included, [record] ends the same way, with the
    stream it opened closed, the recording flag cleared and the buffer
    holding what was pushed. *)
Theorem record_closes_the_stream_it_started
    (d : Driver) (duration : Z) (w : World) :
  open_error d = None ->
  start_error d = None ->
  stop_error d = None ->
  exists w',
    record d duration w
    = (w', match sleep_error d with
           | None => Ok (pushed (blocks d))
           | Some r => Raise r
           end)
    /\ held_stream w' = Some (set_status Closed fresh_stream)
    /\ is_recording (recorder w') = false
    /\ audio_buffer (recorder w') = pushed (blocks d).
Proof.
  intros Ho Ha Hs.
  destruct w as [ss [s buf isrec cdb] loc f out0].
  unfold record, held_stream. run. fire_step. run.
  destruct (existsb is_active ss).
  all: match goal with
       | |- context [_initialize_stream ?d' ?W] =>
           pose proof (initialize_stream_spec d' W) as Hi;
           destruct (_initialize_stream d' W) as [w1 [[ | ] | r]]
       end.
  all: try (exfalso; destruct Hi as [Hi | Hi]; congruence).
  all: destruct Hi as (_ & ss' & out' & ->); rewrite Ha, Hs.
  all: destruct (sleep_error d) as [ [ e2 | ] | ].
  all: repeat first
         [ rewrite alter_last
         | rewrite lookup_last
         | rewrite running_last by reflexivity
         | fire_step
         | progress run
         | progress cbv beta iota delta [is_active status] ].
  all: eexists; split; [ reflexivity | ];
       cbn [streams recorder stream audio_buffer is_recording];
       rewrite lookup_last; repeat split; reflexivity.
Qed.

Lemma record_closes_the_stream_it_started_witness :
  exists w',
    record fine DURATION boot
    = (w', match sleep_error fine with
           | None => Ok (pushed (blocks fine))
           | Some r => Raise r
           end)
    /\ held_stream w' = Some (set_status Closed fresh_stream)
    /\ is_recording (recorder w') = false
    /\ audio_buffer (recorder w') = pushed (blocks fine).
Proof.
  apply (record_closes_the_stream_it_started fine DURATION boot); reflexivity.
Defined.


(* ===================================================================== *)
(** * Saving, continued *)
(* ===================================================================== *)

Lemma makedirs_SAVE_PATH (s s1 : FileSystem) :
  makedirs SAVE_PATH s = inr s1 -> "recordings" ∈ dirs s1.
Proof.
  pose proof (makedirs_one "recordings" true s eq_refl) as Hm.
  cbv iota in Hm. change ("recordings" +:+ "/") with SAVE_PATH in Hm.
  rewrite Hm. unfold stat. cbn [climbs forallb String.eqb Ascii.eqb Bool.eqb andb].
  change (path_key false ["recordings"]) with "recordings".
  destruct (bool_decide ("recordings" ∈ dirs s)) eqn:E.
  - apply bool_decide_eq_true in E. intros H. inversion H; subst. exact E.
  - destruct (files s !! "recordings"); [ discriminate | ].
    intros H. inversion H. unfold add_dir. cbn [dirs]. set_solver.
Qed.

(** The path of a plain file name leads to the key of the same text. *)
Lemma open_wb_plain_key (filename key : string) (s1 : FileSystem) :
  plain_name filename = true ->
  "recordings" ∈ dirs s1 ->
  open_wb (os_path_join SAVE_PATH filename) s1 = inr key ->
  key = SAVE_PATH +:+ filename.
Proof.
  intros Hn Hd. destruct (plain_name_inv filename Hn) as (Sn & _).
  rewrite (os_path_join_plain _ Sn).
  change (SAVE_PATH +:+ filename) with ("recordings" +:+ String "/" filename).
  assert (Hs : stat s1 false ["recordings"] = Directory).
  { unfold stat. cbn [climbs forallb String.eqb Ascii.eqb Bool.eqb andb].
    change (path_key false ["recordings"]) with "recordings".
    rewrite bool_decide_eq_true_2 by exact Hd. reflexivity. }
  rewrite (open_wb_in_dir "recordings" filename s1 eq_refl Hn Hs).
  destruct (stat s1 false ["recordings"; filename]); intros H; inversion H;
    reflexivity.
Qed.

Lemma mono_concat_length (a : list frame) :
  Forall (fun f => length f = 1%nat) a -> length (concat a) = length a.
Proof.
  induction 1 as [ | f a Hf _ IH ]; [ reflexivity | ].
  cbn [concat]. rewrite length_app, Hf, IH. reflexivity.
Qed.

(** What [save_audio] does to the world, whatever the name. *)
Lemma save_audio_outcome (a : list frame) (filename : string) (w : World) :
  match save_audio a filename w with
  | (w', Ok path) =>
      path = os_path_join SAVE_PATH filename
      /\ (exists key,
             files (fs w') = <[ key := gunshot_file a ]> (files (fs w))
             /\ (plain_name filename = true -> key = SAVE_PATH +:+ filename))
      /\ "recordings" ∈ dirs (fs w')
  | (w', Raise r) =>
      (exists e, r = Exc e) /\ files (fs w') = files (fs w)
  end
  /\ dirs (fs w) ⊆ dirs (fs (fst (save_audio a filename w)))
  /\ streams (fst (save_audio a filename w)) = streams w
  /\ recorder (fst (save_audio a filename w)) = recorder w
  /\ LOCAL_SAMPLE_RATE (fst (save_audio a filename w)) = LOCAL_SAMPLE_RATE w
  /\ output (fst (save_audio a filename w)) = output w.
Proof.
  rewrite save_audio_eq.
  destruct (makedirs SAVE_PATH (fs w)) as [ e | s1 ] eqn:Em.
  { cbn [fst]. split; [ split; [ eauto | reflexivity ] | ]. auto. }
  pose proof (makedirs_SAVE_PATH _ _ Em) as Hin.
  apply makedirs_grows in Em as [Hf Hd].
  destruct (open_wb (os_path_join SAVE_PATH filename) s1) as [ e | key ] eqn:Eo;
    cbn [fst fs set_fs write_file files dirs streams recorder
         LOCAL_SAMPLE_RATE output].
  - split; [ split; [ eauto | exact Hf ] | ]. auto.
  - split; [ | auto ]. split; [ reflexivity | ]. split; [ | exact Hin ].
    exists key. rewrite Hf. split; [ reflexivity | ].
    intros Hn. eapply open_wb_plain_key; eassumption.
Qed.

(** X8.  When [save_audio] returns, it returns the path
    [os.path.join('recordings/', name)], [recordings] is a directory, and
    the files are those of before with the window at exactly one key, the
    place the path leads to, which is [recordings/<name>] for a name that
    is one plain component.  When it raises, it raises an [Exception] and
    no file has changed.  In both cases no directory is lost and the
    streams, the recorder, the globals and the output are untouched. *)
Theorem save_audio_stores_the_window
    (audio_data : list frame) (filename : string) (w : World) :
  match save_audio audio_data filename w with
  | (w', Ok path) =>
      path = os_path_join SAVE_PATH filename
      /\ (exists key,
             files (fs w') = <[ key := gunshot_file audio_data ]> (files (fs w))
             /\ (plain_name filename = true -> key = SAVE_PATH +:+ filename))
      /\ "recordings" ∈ dirs (fs w')
  | (w', Raise r) =>
      (exists e, r = Exc e) /\ files (fs w') = files (fs w)
  end
  /\ dirs (fs w) ⊆ dirs (fs (fst (save_audio audio_data filename w)))
  /\ streams (fst (save_audio audio_data filename w)) = streams w
  /\ recorder (fst (save_audio audio_data filename w)) = recorder w
  /\ LOCAL_SAMPLE_RATE (fst (save_audio audio_data filename w))
     = LOCAL_SAMPLE_RATE w
  /\ output (fst (save_audio audio_data filename w)) = output w.
Proof. apply save_audio_outcome. Qed.

(** X9.  For every window of [N] mono frames that [save_audio] could
    save, the file it left holds [4 * N] bytes of data under a header of
    two bytes per sample: a reader counts [2 * N] frames.  No other file
    has changed. *)
Theorem save_audio_frame_count
    (audio_data : list frame) (filename path : string) (w w' : World) :
  Forall (fun f => length f = 1%nat) audio_data ->
  save_audio audio_data filename w = (w', Ok path) ->
  exists key f,
    files (fs w') !! key = Some f
    /\ (forall k, k <> key -> files (fs w') !! k = files (fs w) !! k)
    /\ (plain_name filename = true -> key = path)
    /\ length (wav_data f) = (4 * length audio_data)%nat
    /\ wav_nframes f = (2 * Z.of_nat (length audio_data))%Z.
Proof.
  intros Hmono Hs.
  pose proof (save_audio_outcome audio_data filename w) as [H _].
  rewrite Hs in H. destruct H as (Hp & (key & Hf & Hk) & _).
  exists key, (gunshot_file audio_data). rewrite Hf.
  split; [ apply lookup_insert_eq | ].
  split; [ intros k Hne; apply lookup_insert_ne; congruence | ].
  split.
  - intros Hn. rewrite (Hk Hn), Hp.
    destruct (plain_name_inv filename Hn) as (Sn & _).
    symmetry. apply os_path_join_plain, Sn.
  - split; [ | apply gunshot_file_nframes, Hmono ].
    unfold gunshot_file. cbn [wav_data]. rewrite tobytes_length.
    rewrite (mono_concat_length _ Hmono). reflexivity.
Qed.

(* ===================================================================== *)
(** * What statements leave alone *)
(* ===================================================================== *)

Lemma logged_nil (w : World) : logged [] w = w.
Proof. destruct w. unfold logged. cbn. rewrite app_nil_r. reflexivity. Qed.

Lemma logged_logged (out1 out2 : list event) (w : World) :
  logged out2 (logged out1 w) = logged (out1 ++ out2) w.
Proof. unfold logged. cbn. rewrite app_assoc. reflexivity. Qed.

Create HintDb logs.

Lemma ol_ret {A} (a : A) : only_logs (ret a).
Proof. intros w. exists []. rewrite logged_nil. reflexivity. Qed.

Lemma ol_lift {A} (r : result A) : only_logs (lift r).
Proof. intros w. exists []. rewrite logged_nil. reflexivity. Qed.

Lemma ol_call {A} (r : exception + A) : only_logs (call r).
Proof.
  intros w. exists []. rewrite logged_nil. unfold call. destruct r; reflexivity.
Qed.

Lemma ol_raise {A} (e : exception) : only_logs (@raise A e).
Proof. intros w. exists []. rewrite logged_nil. reflexivity. Qed.

Lemma ol_say (e : event) : only_logs (say e).
Proof. intros w. exists [e]. reflexivity. Qed.

Lemma ol_bind {A B} (m : M A) (k : A -> M B) :
  only_logs m -> (forall a, only_logs (k a)) -> only_logs (x <- m ;; k x).
Proof.
  intros Hm Hk w. rewrite bind_eq. destruct (Hm w) as [out1 E1].
  destruct (m w) as [w1 [a | r]]; cbn [fst] in E1; subst w1.
  - destruct (Hk a (logged out1 w)) as [out2 E2].
    exists (out1 ++ out2). rewrite E2. apply logged_logged.
  - exists out1. reflexivity.
Qed.

Lemma ol_try_except {A} (body : M A) (handler : exception -> M A) :
  only_logs body -> (forall e, only_logs (handler e)) ->
  only_logs (try_except body handler).
Proof.
  intros Hb Hh w. unfold try_except. destruct (Hb w) as [out1 E1].
  destruct (body w) as [w1 [a | [e | ]]]; cbn [fst] in E1; subst w1.
  - exists out1. reflexivity.
  - destruct (Hh e (logged out1 w)) as [out2 E2].
    exists (out1 ++ out2). rewrite E2. apply logged_logged.
  - exists out1. reflexivity.
Qed.

Lemma ol_for_each {A} (l : list A) (f : A -> M unit) :
  (forall a, only_logs (f a)) -> only_logs (for_each l f).
Proof.
  intros Hf. induction l as [ | x l IH ]; cbn [for_each].
  - apply ol_ret.
  - apply ol_bind; auto.
Qed.

Lemma ol_if {A} (b : bool) (m1 m2 : M A) :
  only_logs m1 -> only_logs m2 -> only_logs (if b then m1 else m2).
Proof. destruct b; auto. Qed.

Ltac logs_only :=
  repeat first
    [ apply ol_ret | apply ol_say | apply ol_call | apply ol_raise | apply ol_lift
    | apply ol_bind; [ | intros ? ]
    | apply ol_try_except; [ | intros ? ]
    | apply ol_for_each; intros ?
    | apply ol_if ].

Lemma only_logs_keeps_device {A} (m : M A) : only_logs m -> keeps_device m.
Proof. intros H w. destruct (H w) as [out ->]. split; reflexivity. Qed.

(** * The classifier wrapper, continued *)

Section WrapperProofs.

Variable yamnet : list qfloat -> exception + list (list qfloat).
Variable librosa_resample : list qfloat -> Z -> Z -> exception + list qfloat.
Variable np_argsort : list qfloat -> list nat.
Variable class_names : list string.

Lemma process_audio_only_logs (a : list frame) (sr : Z) :
  only_logs (process_audio librosa_resample a sr).
Proof. unfold process_audio. logs_only. Qed.

Lemma detect_only_logs (a : list frame) (sr : Z) :
  only_logs (detect yamnet librosa_resample np_argsort class_names a sr).
Proof.
  unfold detect, detect_try.
  apply ol_try_except; [ | intros e; logs_only ].
  apply ol_bind; [ apply process_audio_only_logs | intros ? ].
  unfold log_top. logs_only.
Qed.

(** [detect] always returns. *)
Lemma detect_returns (a : list frame) (sr : Z) (w : World) :
  exists w' p,
    detect yamnet librosa_resample np_argsort class_names a sr w = (w', Ok p).
Proof.
  unfold detect, try_except.
  pose proof (detect_try_no_interrupt yamnet librosa_resample np_argsort
                class_names a sr w) as Hni.
  destruct (detect_try yamnet librosa_resample np_argsort class_names a sr w)
    as [w1 [q | [e | ]]]; cbn [snd] in Hni.
  - eexists _, _. reflexivity.
  - eexists _, _. reflexivity.
  - congruence.
Qed.

(** X10.  The classifier wrapper touches nothing but the log: whatever
    the input and whatever the model, the resampler and the class list do,
    after [detect] the streams, the recorder, the rate noted at
    construction and the files are as before, and the output is the one of
    before followed by the lines [detect] wrote. *)
Theorem detect_only_writes_log_lines (audio_data : list frame) (sample_rate : Z)
    (w : World) :
  exists out,
    fst (detect yamnet librosa_resample np_argsort class_names
                audio_data sample_rate w)
    = {| streams := streams w; recorder := recorder w;
         LOCAL_SAMPLE_RATE := LOCAL_SAMPLE_RATE w; fs := fs w;
         output := output w ++ out |}.
Proof. apply detect_only_logs. Qed.

End WrapperProofs.

(** * The wrapper when nothing fails *)

Lemma take_indices_ok (row : list qfloat) (cols : list nat) :
  Forall (fun c => (c < length row)%nat) cols ->
  exists r, take_indices row cols = Ok r /\ length r = length cols.
Proof.
  induction 1 as [ | c cs Hc _ (r & Er & Lr) ]; cbn [take_indices].
  - exists []. auto.
  - destruct (lookup_lt_is_Some_2 row c Hc) as [x Ex]. rewrite Ex, Er.
    exists (x :: r). cbn. auto.
Qed.

Lemma select_columns_ok (m : list (list qfloat)) (cols : list nat) :
  Forall (fun row => Forall (fun c => (c < length row)%nat) cols) m ->
  exists p,
    select_columns m cols = Ok p
    /\ length p = length m
    /\ Forall (fun r => length r = length cols) p.
Proof.
  induction 1 as [ | row rows Hrow _ (p & Ep & Lp & Fp) ]; cbn [select_columns].
  - exists []. auto.
  - destruct (take_indices_ok row cols Hrow) as (r & Er & Lr). rewrite Er, Ep.
    exists (r :: p). cbn. auto.
Qed.

Lemma np_max_axis0_ok (m : list (list qfloat)) :
  m <> [] -> exists v, np_max_axis0 m = Ok v.
Proof. destruct m; [ congruence | eexists; reflexivity ]. Qed.

Lemma np_max_axis0_length (m : list (list qfloat)) (v : list qfloat) (n : nat) :
  Forall (fun r => length r = n) m -> np_max_axis0 m = Ok v -> length v = n.
Proof.
  destruct m as [ | r rs ]; [ discriminate | ].
  intros H E. apply Forall_cons in H as [Hr Hrs].
  cbn in E. inversion E; subst v. clear E.
  revert r Hr. induction Hrs as [ | r' rs Hr' _ IH ]; intros r Hr.
  - exact Hr.
  - cbn [fold_left]. apply IH. rewrite length_zip_with. lia.
Qed.

Lemma argmax_from_bound (l : list qfloat) (best : qfloat) (ibest i : nat) :
  (ibest < i)%nat -> (argmax_from best ibest i l < i + length l)%nat.
Proof.
  revert best ibest i. induction l as [ | x l IH ]; intros best ibest i H; cbn.
  - lia.
  - assert (H1 : forall b, (argmax_from b i (S i) l < i + S (length l))%nat).
    { intros b. specialize (IH b i (S i)). lia. }
    assert (H2 : forall b, (argmax_from b ibest (S i) l < i + S (length l))%nat).
    { intros b. specialize (IH b ibest (S i)). lia. }
    destruct best as [ | s | q ]; [ lia | | ];
      destruct x as [ | t | y ]; try apply H1;
      match goal with |- context [if ?c then _ else _] => destruct c end;
      auto.
Qed.

Lemma np_argmax_ok (l : list qfloat) :
  l <> [] -> exists b, np_argmax l = Ok b /\ (b < length l)%nat.
Proof.
  destruct l as [ | x l ]; [ congruence | ]. intros _.
  eexists. split; [ reflexivity | ].
  pose proof (argmax_from_bound l x 0 1). cbn. lia.
Qed.

Lemma py_index_ok {A} (l : list A) (i : nat) :
  (i < length l)%nat -> exists x, py_index l i = Ok x /\ l !! i = Some x.
Proof.
  intros H. destruct (lookup_lt_is_Some_2 l i H) as [x Ex].
  exists x. unfold py_index. rewrite Ex. auto.
Qed.

Section SuccessProofs.

Variable yamnet : list qfloat -> exception + list (list qfloat).
Variable librosa_resample : list qfloat -> Z -> Z -> exception + list qfloat.
Variable np_argsort : list qfloat -> list nat.
Variable class_names : list string.

Lemma log_top_ok (all_probs : list qfloat) (idx : nat) (w : World) :
  (idx < length all_probs)%nat ->
  exists w', log_top class_names all_probs idx w = (w', Ok tt).
Proof.
  intros H. unfold log_top.
  destruct (idx <? length class_names)%nat eqn:E; [ | eexists; reflexivity ].
  apply Nat.ltb_lt in E.
  destruct (py_index_ok class_names idx E) as (c & Ec & _).
  destruct (py_index_ok all_probs idx H) as (p & Ep & _).
  rewrite bind_eq. unfold lift at 1. rewrite Ec.
  rewrite bind_eq. unfold lift at 1. rewrite Ep.
  eexists. reflexivity.
Qed.

Lemma log_tops_ok (all_probs : list qfloat) (l : list nat) (w : World) :
  Forall (fun i => (i < length all_probs)%nat) l ->
  exists w', for_each l (log_top class_names all_probs) w = (w', Ok tt).
Proof.
  intros H. revert w. induction H as [ | i l Hi _ IH ]; intros w; cbn [for_each].
  - eexists. reflexivity.
  - rewrite bind_eq. destruct (log_top_ok all_probs i w Hi) as (w1 & ->). apply IH.
Qed.

(** X11.  When nothing fails, [detect] returns the score and not the 0.0
    of its handler: if the audio could be processed, the model returns a
    matrix with at least one row and at least 420 columns in every row,
    [np.argsort] returns positions of its argument, and the class list has
    at least 420 names, then [detect] returns the largest entry of columns
    417, 418 and 419 of the matrix. *)
Theorem detect_returns_the_gunshot_score
    (audio_data : list frame) (sample_rate : Z) (w w0 : World)
    (processed : list qfloat) (scores : list (list qfloat)) :
  process_audio librosa_resample audio_data sample_rate w = (w0, Ok processed) ->
  yamnet processed = inr scores ->
  scores <> [] ->
  Forall (fun row => (420 <= length row)%nat) scores ->
  (forall l, Forall (fun i => (i < length l)%nat) (np_argsort l)) ->
  (420 <= length class_names)%nat ->
  exists w' probs p,
    detect yamnet librosa_resample np_argsort class_names
           audio_data sample_rate w = (w', Ok p)
    /\ select_columns scores gunshot_classes = Ok probs
    /\ np_max (concat probs) = Ok p.
Proof.
  intros Hp Hy Hne Hrows Hsort Hnames.
  destruct (np_max_axis0_ok scores Hne) as (all_probs & Ea).
  destruct (select_columns_ok scores gunshot_classes) as (probs & Eg & Lg & Fg).
  { eapply Forall_impl; [ exact Hrows | ]. intros row Hrow.
    unfold gunshot_classes. cbn beta in Hrow.
    repeat (apply Forall_cons_2; [ lia | ]). apply Forall_nil_2. }
  assert (Hpne : probs <> []).
  { intros ->. destruct scores; [ congruence | discriminate Lg ]. }
  assert (Hcat : concat probs <> []).
  { destruct probs as [ | r rs ]; [ congruence | ].
    apply Forall_cons in Fg as [Hr _]. destruct r; [ discriminate Hr | ].
    discriminate. }
  assert (Hm : exists p, np_max (concat probs) = Ok p).
  { destruct (concat probs); [ congruence | eexists; reflexivity ]. }
  destruct Hm as (p & Em).
  destruct (np_max_axis0_ok probs Hpne) as (per_class & Epc).
  pose proof (np_max_axis0_length probs per_class _ Fg Epc) as Lpc.
  destruct (np_argmax_ok per_class) as (best & Eb & Lb).
  { intros ->. discriminate Lpc. }
  rewrite Lpc in Lb. change (length gunshot_classes) with 3%nat in Lb.
  destruct (py_index_ok gunshot_classes best Lb) as (cls & Ecls & Lcls).
  assert (Hcls : (cls < length class_names)%nat).
  { unfold gunshot_classes in Lcls.
    destruct best as [ | [ | [ | ? ] ] ]; cbn in Lcls; inversion Lcls; lia. }
  destruct (py_index_ok class_names cls Hcls) as (name & Ename & _).
  assert (Htry : exists w',
    detect_try yamnet librosa_resample np_argsort class_names
               audio_data sample_rate w = (w', Ok p)).
  { unfold detect_try.
    rewrite bind_eq, Hp. rewrite bind_eq. unfold call at 1. rewrite Hy.
    rewrite bind_eq. unfold lift at 1. rewrite Ea.
    rewrite bind_eq. unfold lift at 1. rewrite Eg.
    rewrite bind_eq. unfold lift at 1. rewrite Em.
    rewrite bind_eq. unfold lift at 1. rewrite Epc.
    rewrite bind_eq. unfold lift at 1. rewrite Eb.
    rewrite bind_eq. unfold lift at 1. rewrite Ecls.
    rewrite bind_eq. unfold say at 1, modify at 1.
    rewrite bind_eq.
    destruct (log_tops_ok all_probs (top_5 np_argsort all_probs)
                (emit (Log INFO (String LF "Top 5 detected sounds:")) w0)) as (w2 & ->).
    { unfold top_5. apply Forall_rev, Forall_drop, Hsort. }
    rewrite bind_eq.
    destruct (fgt p (Fin 0%Q)).
    - rewrite bind_eq. unfold lift at 1. rewrite Ename. eexists. reflexivity.
    - eexists. reflexivity. }
  destruct Htry as (w' & Htry).
  exists w', probs, p. split; [ | auto ].
  unfold detect, try_except. rewrite Htry. reflexivity.
Qed.


End SuccessProofs.

(** * Construction of the wrapper *)

Lemma traverse_Forall2 {A B} (f : A -> result B) (l : list A) (ys : list B) :
  traverse f l = Ok ys -> Forall2 (fun x y => f x = Ok y) l ys.
Proof.
  revert ys. induction l as [ | x l IH ]; intros ys; cbn [traverse].
  - intros H. inversion H. constructor.
  - destruct (f x) as [ y | r ] eqn:E; cbn; [ | discriminate ].
    destruct (traverse f l) as [ ys' | r ]; cbn; [ | discriminate ].
    intros H. inversion H. constructor; auto.
Qed.

Lemma traverse_exc {A B} (f : A -> result B) (l : list A) :
  (forall x, f x <> Raise KeyboardInterrupt) ->
  traverse f l <> Raise KeyboardInterrupt.
Proof.
  intros Hf. induction l as [ | x l IH ]; cbn [traverse]; [ discriminate | ].
  destruct (f x) as [ y | r ] eqn:E; cbn.
  - destruct (traverse f l) as [ ys | r ]; cbn; [ discriminate | exact IH ].
  - intros H. inversion H; subst. exact (Hf x E).
Qed.

Lemma py_index_Ok_lookup {A} (l : list A) (i : nat) (x : A) :
  py_index l i = Ok x -> l !! i = Some x.
Proof. unfold py_index. destruct (l !! i); intros H; inversion H; auto. Qed.

Lemma third_column (rows : list (list string)) (names : list string) :
  traverse (fun row => py_index row 2) rows = Ok names ->
  Forall2 (fun row n => row !! 2%nat = Some n) rows names.
Proof.
  intros H. apply traverse_Forall2 in H.
  eapply Forall2_impl; [ exact H | ]. intros row n. apply py_index_Ok_lookup.
Qed.

Lemma gunshot_names_need_420 (names g : list string) :
  traverse (py_index names) gunshot_classes = Ok g -> (420 <= length names)%nat.
Proof.
  intros H. apply traverse_Forall2 in H. unfold gunshot_classes in H.
  inversion H as [ | ? ? ? ? _ H1 ]; subst.
  inversion H1 as [ | ? ? ? ? _ H2 ]; subst.
  inversion H2 as [ | ? ? ? ? H3 _ ]; subst.
  apply py_index_Ok_lookup, lookup_lt_Some in H3. lia.
Qed.

(** X12.  A wrapper that could be built knows its classes: the model was
    loaded, the class map was read, every row of it after the header has
    a third column, the names are these third columns in order, and there
    are at least 420 of them, so that the three gunshot classes have a
    name. *)
Theorem built_wrapper_knows_its_classes
    (hub_load : exception + unit) (class_map : exception + list (list string))
    (w w' : World) (names : list string) :
  PretrainedGunshotDetector_init hub_load class_map w = (w', Ok names) ->
  hub_load = inr tt
  /\ (exists rows,
        class_map = inr rows
        /\ Forall2 (fun row n => row !! 2%nat = Some n) rows names)
  /\ (420 <= length names)%nat.
Proof.
  unfold PretrainedGunshotDetector_init.
  destruct hub_load as [ e | [] ]; [ run; discriminate | ].
  destruct class_map as [ e | rows ]; [ run; discriminate | ].
  destruct (traverse (fun row => py_index row 2) rows) as [ ns | [ e | ] ] eqn:E1;
    run; rewrite E1; run; try discriminate.
  destruct (traverse (py_index ns) gunshot_classes) as [ g | [ e | ] ] eqn:E2;
    run; try discriminate.
  intros H. inversion H; subst. split; [ reflexivity | ]. split.
  - exists rows. split; [ reflexivity | apply third_column, E1 ].
  - eapply gunshot_names_need_420, E2.
Qed.

(** X13.  A wrapper that could not be built says why: whatever fails in
    the construction, the model, the class map, a row without a third
    column or a class map of fewer than 420 rows, the exception is an
    [Exception], the line ["Error initializing model: ..."] with its text
    is the last line written, and nothing else of the world changed. *)
Theorem failed_construction_is_logged_and_raised
    (hub_load : exception + unit) (class_map : exception + list (list string))
    (w w' : World) (r : raised) :
  PretrainedGunshotDetector_init hub_load class_map w = (w', Raise r) ->
  exists e out,
    r = Exc e
    /\ w' = logged (out ++ [Log ERROR ("Error initializing model: " +:+ str e)]) w.
Proof.
  unfold PretrainedGunshotDetector_init. destruct w as [ss rc loc f o].
  destruct hub_load as [ e | [] ].
  { run. intros H. inversion H. exists e, [Log INFO "Loading YAMNet model..."].
    split; [ reflexivity | ]. unfold logged. cbn. rewrite <- app_assoc. reflexivity. }
  destruct class_map as [ e | rows ].
  { run. intros H. inversion H.
    exists e, [Log INFO "Loading YAMNet model...";
               Log INFO "YAMNet model loaded successfully"].
    split; [ reflexivity | ]. unfold logged. cbn. rewrite <- !app_assoc. reflexivity. }
  destruct (traverse (fun row => py_index row 2) rows) as [ ns | [ e | ] ] eqn:E1.
  - destruct (traverse (py_index ns) gunshot_classes) as [ g | [ e | ] ] eqn:E2.
    + run. rewrite E1. run. rewrite E2. run. discriminate.
    + run. rewrite E1. run. rewrite E2. run. intros H. inversion H.
      exists e, [Log INFO "Loading YAMNet model...";
                 Log INFO "YAMNet model loaded successfully"].
      split; [ reflexivity | ]. unfold logged. cbn. rewrite <- !app_assoc. reflexivity.
    + exfalso. revert E2. apply traverse_exc. intros x. apply py_index_exc.
  - run. rewrite E1. run. intros H. inversion H.
    exists e, [Log INFO "Loading YAMNet model...";
               Log INFO "YAMNet model loaded successfully"].
    split; [ reflexivity | ]. unfold logged. cbn. rewrite <- !app_assoc. reflexivity.
  - exfalso. revert E1. apply traverse_exc. intros x. apply py_index_exc.
Qed.

(** X14.  A class map of fewer than 420 rows is refused: the construction
    raises [IndexError] when it looks up the names of the gunshot
    classes. *)
Theorem short_class_map_is_refused
    (rows : list (list string)) (names : list string) (w : World) :
  traverse (fun row => py_index row 2) rows = Ok names ->
  (length rows < 420)%nat ->
  exists w', PretrainedGunshotDetector_init (inr tt) (inr rows) w
             = (w', Raise (Exc (IndexError "list index out of range"))).
Proof.
  intros E1 Hlen.
  assert (Ln : length names = length rows).
  { apply third_column, Forall2_length in E1. auto. }
  assert (E2 : traverse (py_index names) gunshot_classes
               = Raise (Exc (IndexError "list index out of range"))).
  { unfold gunshot_classes. cbn [traverse].
    destruct (py_index names 417) as [ a | r ] eqn:Ea; cbn.
    - destruct (py_index names 418) as [ b | r ] eqn:Eb; cbn.
      + assert (Ec : py_index names 419 = Raise (Exc (IndexError "list index out of range"))).
        { unfold py_index. rewrite lookup_ge_None_2 by lia. reflexivity. }
        rewrite Ec. reflexivity.
      + unfold py_index in Eb. destruct (names !! 418%nat); inversion Eb. reflexivity.
    - unfold py_index in Ea. destruct (names !! 417%nat); inversion Ea. reflexivity. }
  unfold PretrainedGunshotDetector_init. run. rewrite E1. run. rewrite E2. run.
  eexists. reflexivity.
Qed.

(** * Normalisation of the audio *)

Lemma Q_ltb_true (x y : Q) : ltb x y = true -> (x < y)%Q.
Proof.
  unfold ltb, Q_ltb. intros H. apply negb_true_iff in H.
  apply Qnot_le_lt. intros Hle. apply Qle_bool_iff in Hle. congruence.
Qed.

Lemma Q_ltb_false (x y : Q) : ltb x y = false -> (y <= x)%Q.
Proof.
  unfold ltb, Q_ltb. intros H. apply negb_false_iff in H.
  apply Qle_bool_iff. exact H.
Qed.

Lemma finite_inv (v : qfloat) : finite v -> exists q, v = Fin q.
Proof. destruct v; try discriminate. eauto. Qed.

(** The largest of numbers is a number, and none of them exceeds it. *)
Lemma fold_fmaximum_Fin (l : list qfloat) (x : Q) :
  Forall finite l ->
  exists m,
    fold_left fmaximum l (Fin x) = Fin m
    /\ (x <= m)%Q
    /\ Forall (fun v => forall q, v = Fin q -> (q <= m)%Q) l.
Proof.
  intros H. revert x. induction H as [ | v l Hv _ IH ]; intros x;
    [ | apply finite_inv in Hv as [y ->] ].
  - exists x. split; [ reflexivity | ]. split; [ apply Qle_refl | constructor ].
  - cbn [fold_left fmaximum flt].
    destruct (ltb x y) eqn:E.
    + apply Q_ltb_true in E. destruct (IH y) as (m & Em & Hm & Hl).
      exists m. split; [ exact Em | ]. split.
      * apply Qle_trans with y; [ apply Qlt_le_weak, E | exact Hm ].
      * constructor; [ | exact Hl ]. intros q Hq. inversion Hq; subst. exact Hm.
    + apply Q_ltb_false in E. destruct (IH x) as (m & Em & Hm & Hl).
      exists m. split; [ exact Em | ]. split; [ exact Hm | ].
      constructor; [ | exact Hl ]. intros q Hq. inversion Hq; subst.
      apply Qle_trans with x; assumption.
Qed.

Lemma finite_fabs (l : list qfloat) : Forall finite l -> Forall finite (np_abs l).
Proof.
  unfold np_abs. intros H. apply Forall_map.
  eapply Forall_impl; [ exact H | ]. intros v Hv.
  apply finite_inv in Hv as [q ->]. reflexivity.
Qed.

(** The peak of numbers is a number that bounds each of them in absolute
    value. *)
Lemma peak_bounds (vs : list qfloat) :
  Forall finite vs -> vs <> [] ->
  exists m,
    np_max (np_abs vs) = Ok (Fin m)
    /\ Forall (fun v => exists q, v = Fin q /\ (Qabs q <= m)%Q) vs.
Proof.
  destruct vs as [ | v vs ]; [ congruence | ]. intros H _.
  apply Forall_cons in H as [Hv H]. apply finite_inv in Hv as [q ->].
  destruct (fold_fmaximum_Fin (np_abs vs) (Qabs q) (finite_fabs _ H))
    as (m & Em & Hq & Hl).
  exists m. split; [ cbn; unfold np_abs in Em; rewrite Em; reflexivity | ].
  constructor; [ exists q; auto | ].
  unfold np_abs in Hl. rewrite Forall_map in Hl.
  rewrite Forall_forall in H, Hl. apply Forall_forall. intros v Hv.
  destruct (finite_inv v (H v Hv)) as [y ->]. exists y. split; [ reflexivity | ].
  apply (Hl _ Hv). reflexivity.
Qed.

Lemma unit_div (q m : Q) :
  (Qabs q <= m)%Q -> (0 < m)%Q -> unit_range (fdiv (Fin q) (Fin m)).
Proof.
  intros Hq Hm. unfold fdiv, q_is_zero.
  destruct (Qeq_bool m 0) eqn:E.
  { apply Qeq_bool_iff in E. rewrite E in Hm. exfalso. revert Hm. apply Qlt_irrefl. }
  exists (q / m)%Q. split; [ reflexivity | ].
  apply Qabs_Qle_condition in Hq. destruct Hq as [Hlo Hhi]. split.
  - apply Qle_shift_div_l; [ exact Hm | ].
    assert (H : (-1 * m == - m)%Q) by ring. rewrite H. exact Hlo.
  - apply Qle_shift_div_r; [ exact Hm | ].
    assert (H : (1 * m == m)%Q) by ring. rewrite H. exact Hhi.
Qed.

Lemma unit_small (q m : Q) :
  (Qabs q <= m)%Q -> (m <= 0)%Q -> unit_range (Fin q).
Proof.
  intros Hq Hm. exists q. split; [ reflexivity | ].
  apply Qabs_Qle_condition in Hq. destruct Hq as [Hlo Hhi]. split.
  - apply Qle_trans with (- m)%Q; [ | exact Hlo ].
    apply Qle_trans with 0%Q; [ discriminate | ].
    apply (Qopp_le_compat m 0) in Hm. exact Hm.
  - apply Qle_trans with m; [ exact Hhi | ].
    apply Qle_trans with 0%Q; [ exact Hm | discriminate ].
Qed.

(** X15.  At the model's own rate the audio goes through
    [process_audio] untouched but for its scale: when the window holds at
    least one sample and every sample is a number, [process_audio] at
    16000 Hz returns as many values as there are samples, every one a
    number between -1 and 1, without resampling and without writing a
    line. *)
Theorem processed_audio_is_normalised
    (librosa_resample : list qfloat -> Z -> Z -> exception + list qfloat)
    (audio_data : list frame) (w : World) :
  Forall finite (np_values audio_data) ->
  np_values audio_data <> [] ->
  exists processed,
    process_audio librosa_resample audio_data 16000 w = (w, Ok processed)
    /\ length processed = length (np_values audio_data)
    /\ Forall unit_range processed.
Proof.
  intros Hfin Hne.
  destruct (peak_bounds _ Hfin Hne) as (m & Em & Hb).
  set (vs := np_values audio_data) in *.
  set (audio := if fgt (Fin m) (Fin 0%Q)
                then map (fun x => fdiv x (Fin m)) vs else vs).
  assert (Hlen : length audio = length vs).
  { unfold audio. destruct (fgt (Fin m) (Fin 0%Q)); [ apply length_map | reflexivity ]. }
  assert (Hunit : Forall unit_range audio).
  { unfold audio, fgt. cbn [flt]. destruct (ltb 0%Q m) eqn:E.
    - apply Q_ltb_true in E. apply Forall_map.
      eapply Forall_impl; [ exact Hb | ]. intros v (q & -> & Hq).
      apply unit_div; assumption.
    - apply Q_ltb_false in E.
      eapply Forall_impl; [ exact Hb | ]. intros v (q & -> & Hq).
      eapply unit_small; eassumption. }
  exists audio. split; [ | auto ].
  assert (Hcons : exists a l, audio = a :: l).
  { destruct audio as [ | a l ]; [ | eauto ].
    destruct vs; [ congruence | discriminate Hlen ]. }
  destruct Hcons as (a & l & Ea).
  unfold process_audio, try_except. fold vs.
  rewrite bind_eq. unfold lift at 1. rewrite Em. fold audio.
  rewrite Ea. reflexivity.
Qed.

(** * The loop with its classifier *)

Lemma kd_bind {A B} (m : M A) (k : A -> M B) :
  keeps_device m -> (forall a, keeps_device (k a)) -> keeps_device (x <- m ;; k x).
Proof.
  intros Hm Hk w. rewrite bind_eq. destruct (Hm w) as [S1 R1].
  destruct (m w) as [w1 [a | r]]; cbn [fst] in *.
  - destruct (Hk a w1) as [S2 R2]. split; congruence.
  - auto.
Qed.

Lemma kd_save_audio (a : list frame) (filename : string) :
  keeps_device (save_audio a filename).
Proof.
  intros w. pose proof (save_audio_outcome a filename w) as (_ & _ & Hs & Hr & _).
  auto.
Qed.

Lemma kd_if {A} (b : bool) (m1 m2 : M A) :
  keeps_device m1 -> keeps_device m2 -> keeps_device (if b then m1 else m2).
Proof. destruct b; auto. Qed.

Lemma one_running_kept {A} (m : M A) (w : World) :
  keeps_device m -> one_running w -> one_running (fst (m w)).
Proof.
  intros Hm Hw. destruct (Hm w) as [Hs Hr].
  apply (one_running_stream_fields w); [ exact Hs | rewrite Hr; reflexivity | exact Hw ].
Qed.

Lemma print_all_classes_returns (names : list string) (w : World) :
  exists w', print_all_classes names w = (w', Ok tt).
Proof.
  unfold print_all_classes. generalize (imap (fun i n => dec i +:+ ": " +:+ n) names).
  intros l. revert w. induction l as [ | x l IH ]; intros w; cbn [for_each].
  - eexists. reflexivity.
  - rewrite bind_eq. apply IH.
Qed.

Section LoopProofs.

Variable detect : list frame -> Z -> M qfloat.

(** What follows [record] in a pass of the loop. *)
Lemma after_record_keeps_device (rd : Round) (a : list frame) :
  (forall a sr, keeps_device (detect a sr)) ->
  keeps_device
    (_ <- lift (np_min (np_values a)) ;;
     _ <- lift (np_max (np_values a)) ;;
     probability <- detect a SAMPLE_RATE ;;
     say (PrintProbability probability) ;;
     if fgt probability (Fin (2 # 10)) then
       let timestamp := strftime (now rd) in
       let filename := "gunshot_" +:+ timestamp +:+ ".wav" in
       filepath <- save_audio a filename ;;
       say (LogProbability (String LF "Gunshot detected! (Probability: ")
              probability (") Saved to " +:+ filepath))
     else ret tt).
Proof.
  intros Hd.
  apply kd_bind; [ apply only_logs_keeps_device, ol_lift | intros _ ].
  apply kd_bind; [ apply only_logs_keeps_device, ol_lift | intros _ ].
  apply kd_bind; [ apply Hd | intros p ].
  apply kd_bind; [ apply only_logs_keeps_device, ol_say | intros _ ].
  apply kd_if; [ | apply only_logs_keeps_device, ol_ret ].
  apply kd_bind; [ apply kd_save_audio | intros f ].
  apply only_logs_keeps_device, ol_say.
Qed.

Lemma window_one_running (rd : Round) (w : World) :
  (forall a sr, keeps_device (detect a sr)) ->
  one_running w -> one_running (fst (window detect rd w)).
Proof.
  intros Hd Hw. unfold window. rewrite bind_eq.
  destruct (record_streams (driver rd) DURATION w Hw) as [H1 _].
  destruct (record (driver rd) DURATION w) as [w1 [a | r]]; cbn [fst] in *.
  - apply one_running_kept; [ apply after_record_keeps_device, Hd | exact H1 ].
  - exact H1.
Qed.

Lemma iteration_one_running (rd : Round) (w : World) :
  (forall a sr, keeps_device (detect a sr)) ->
  one_running w -> one_running (fst (iteration detect rd w)).
Proof.
  intros Hd Hw. pose proof (window_one_running rd w Hd Hw) as H.
  unfold iteration, try_except.
  destruct (window detect rd w) as [w1 [ [] | [e | ]]]; cbn [fst] in *; auto.
  rewrite recover_eq. cbn [fst].
  apply (one_running_stream_fields w1); [ reflexivity | reflexivity | exact H ].
Qed.

Lemma loop_one_running (rounds : list Round) (w : World) :
  (forall a sr, keeps_device (detect a sr)) ->
  one_running w -> one_running (fst (monitoring_loop detect rounds w)).
Proof.
  intros Hd. revert w. induction rounds as [ | rd rest IH ]; intros w Hw;
    cbn [monitoring_loop].
  - exact Hw.
  - rewrite bind_eq. pose proof (iteration_one_running rd w Hd Hw) as H.
    destruct (iteration detect rd w) as [w1 [ [] | r ]]; cbn [fst] in *.
    + apply IH, H.
    + exact H.
Qed.

(** X16.  A window without a sample never reaches the classifier: when
    [record] returns an array that holds no sample, the pass ends in the
    handler of the loop with the [ValueError] of [np.min], whatever the
    classifier would have done; the pass then returns, unless Ctrl+C ends
    the pause of the handler. *)
Theorem empty_window_skips_the_classifier
    (rd : Round) (w w1 : World) (a : list frame) :
  record (driver rd) DURATION w = (w1, Ok a) ->
  np_values a = [] ->
  iteration detect rd w
  = (backoff (zero_size "minimum") w1,
     if pause_interrupted (driver rd) then Raise KeyboardInterrupt else Ok tt).
Proof.
  intros Hr Ha. unfold iteration, try_except, window.
  rewrite bind_eq, Hr. rewrite bind_eq. unfold lift at 1. rewrite Ha.
  cbn [np_min]. apply recover_eq.
Qed.

(** X17.  [main] lets no [KeyboardInterrupt] out and no exception out
    without a line: whatever the device, the detector and the rounds, it
    returns after the line of a line feed and ["Shutting down..."], or
    with the rounds used up, or it raises an [Exception] after the line of
    a line feed, ["Fatal error: "] and the text of the exception. *)
Theorem main_reports_how_it_ends
    (load_detector print_classes : M unit) (query : result Device)
    (rounds : list Round) (w : World) :
  match main detect load_detector print_classes query rounds w with
  | (w', Ok Exited) =>
      last (output w') = Some (Log INFO (String LF "Shutting down..."))
  | (w', Ok Idle) => True
  | (w', Raise (Exc e)) =>
      last (output w') = Some (Log ERROR (String LF "Fatal error: " +:+ str e))
  | (w', Raise KeyboardInterrupt) => False
  end.
Proof.
  unfold main.
  match goal with |- context [match ?c w with _ => _ end] => set (body := c) end.
  assert (Hidle : forall w1 s, body w = (w1, Ok s) -> s = Idle).
  { unfold body. intros w1 s H.
    repeat (apply bind_Ok_inv in H; destruct H as (? & ? & _ & H)).
    match type of H with monitoring_loop _ _ ?W = _ =>
      pose proof (monitoring_loop_outcome detect rounds W) as Ho end.
    rewrite H in Ho. exact Ho. }
  destruct (body w) as [w1 [ s | [e | ]]] eqn:E.
  - rewrite (Hidle w1 s eq_refl). exact I.
  - run. apply last_snoc.
  - run. apply last_snoc.
Qed.

(** X18.  Without an input device nothing is started: when the query for
    the default input device fails, [main] raises [RuntimeError] with the
    text ["Failed to initialize audio device"] after two error lines, the
    second one opened by a line feed, and the detector is not loaded:
    streams, files and the rate noted are as before. *)
Theorem main_stops_without_a_device
    (load_detector print_classes : M unit) (e : exception)
    (rounds : list Round) (w : World) :
  exists w',
    main detect load_detector print_classes (Raise (Exc e)) rounds w
    = (w', Raise (Exc (RuntimeError "Failed to initialize audio device")))
    /\ output w'
       = output w
         ++ [ Log ERROR ("Error querying audio devices: " +:+ str e);
              Log ERROR (String LF
                           "Fatal error: Failed to initialize audio device") ]
    /\ streams w' = streams w
    /\ fs w' = fs w
    /\ LOCAL_SAMPLE_RATE w' = LOCAL_SAMPLE_RATE w.
Proof.
  unfold main, AudioRecorder_init. run. eexists. split; [ reflexivity | ].
  cbn. rewrite <- app_assoc. auto.
Qed.

(** X19.  Past the construction [main] does not raise: when the recorder
    and the detector could be built, whatever the classifier and the
    driver do in the rounds that follow, [main] returns. *)
Theorem main_returns_once_started
    (load_detector : M unit) (names : list string) (query : result Device)
    (rounds : list Round) (w w1 : World) :
  (AudioRecorder_init query ;; load_detector) w = (w1, Ok tt) ->
  exists w' s,
    main detect load_detector (print_all_classes names) query rounds w
    = (w', Ok s).
Proof.
  intros H. unfold main.
  rewrite bind_eq in H.
  rewrite bind_eq.
  destruct (AudioRecorder_init query w) as [w0 [ [] | r ]]; [ | discriminate ].
  rewrite bind_eq. rewrite H.
  rewrite bind_eq. unfold say at 1, modify at 1.
  rewrite bind_eq.
  destruct (print_all_classes_returns names
              (emit (Print (String LF "Available sound classes:")) w1))
    as (w2 & ->).
  rewrite bind_eq. unfold say at 1, modify at 1.
  rewrite bind_eq. unfold say at 1, modify at 1.
  match goal with |- context [monitoring_loop detect rounds ?W] =>
    pose proof (monitoring_loop_outcome detect rounds W) as Ho;
    destruct (monitoring_loop detect rounds W) as [w3 [ s | r ]] end.
  - eexists _, _. reflexivity.
  - subst r. eexists _, _. reflexivity.
Qed.

End LoopProofs.

Section WrapperInLoop.

Variable yamnet : list qfloat -> exception + list (list qfloat).
Variable librosa_resample : list qfloat -> Z -> Z -> exception + list qfloat.
Variable np_argsort : list qfloat -> list nat.
Variable class_names : list string.

(** X20.  With the wrapper as classifier, only a refused file sends a
    recorded window to the handler of the loop.  Once [record] has
    returned a window that holds a sample, [detect] returns a score,
    whatever the model does; the pass ends normally when the file system
    accepts the file the pass may write, and when the pass raises, it
    raises the [Exception] of [save_audio]: the score was above 0.2 and
    the file was refused. *)
Theorem recorded_window_ends_normally
    (rd : Round) (w w1 : World) (a : list frame) :
  record (driver rd) DURATION w = (w1, Ok a) ->
  np_values a <> [] ->
  let filename := "gunshot_" +:+ strftime (now rd) +:+ ".wav" in
  let run := window (detect yamnet librosa_resample np_argsort class_names) rd w in
  exists w2 p,
    detect yamnet librosa_resample np_argsort class_names a SAMPLE_RATE w1
    = (w2, Ok p)
    /\ fs w2 = fs w1
    /\ (accepts (fs w1) "recordings" filename = true -> snd run = Ok tt)
    /\ (fgt p (Fin (2 # 10)) = false -> snd run = Ok tt)
    /\ (forall r, snd run = Raise r ->
          (exists e, r = Exc e)
          /\ fgt p (Fin (2 # 10)) = true
          /\ accepts (fs w1) "recordings" filename = false).
Proof.
  intros Hr Ha filename run. subst filename run.
  destruct (detect_returns yamnet librosa_resample np_argsort class_names
              a SAMPLE_RATE w1) as (w2 & p & Hd).
  assert (Hfs : fs w2 = fs w1).
  { destruct (detect_only_logs yamnet librosa_resample np_argsort class_names
                a SAMPLE_RATE w1) as [out Ho].
    rewrite Hd in Ho. cbn [fst] in Ho. rewrite Ho. reflexivity. }
  exists w2, p. split; [ exact Hd | ]. split; [ exact Hfs | ].
  rewrite (window_scored _ rd w w1 w2 a p Hr Ha Hd).
  destruct (fgt p (Fin (2 # 10))).
  - rewrite bind_eq.
    pose proof (save_audio_plain a _ (emit (PrintProbability p) w2)
                  (gunshot_name_plain (now rd))) as Hs.
    change (fs (emit (PrintProbability p) w2)) with (fs w2) in Hs.
    rewrite Hfs in Hs.
    destruct (accepts (fs w1) "recordings" _).
    + destruct Hs as (s1 & _ & ->). cbn [snd].
      split; [ reflexivity | ]. split; [ reflexivity | ]. discriminate.
    + destruct Hs as (w3 & e & -> & _). cbn [snd].
      split; [ discriminate | ]. split; [ discriminate | ].
      intros r H. inversion H. eauto.
  - cbn [snd]. split; [ reflexivity | ]. split; [ reflexivity | ]. discriminate.
Qed.

(** X21.  The whole loop keeps the streams in order: with the wrapper as
    classifier, if at the start the only stream that may run is the one
    the recorder holds, the same is true after any number of passes,
    whatever the drivers and the model did. *)
Theorem loop_leaves_no_other_stream_running (rounds : list Round) (w : World) :
  one_running w ->
  one_running
    (fst (monitoring_loop (detect yamnet librosa_resample np_argsort class_names)
            rounds w)).
Proof.
  apply loop_one_running. intros a sr.
  apply only_logs_keeps_device, detect_only_logs.
Qed.

End WrapperInLoop.

(** * The microphone test *)

Section MicTestProofs.

Variable wave_Error : string -> exception.
Variable f32_mul : qfloat -> Z -> qfloat.
Variable cast_out_of_range : qfloat -> Z.

(** Two bytes for every sample, whatever the conversion makes of it. *)
Lemma pcm16_bytes_length (recording : list frame) :
  length (pcm16_bytes f32_mul cast_out_of_range recording)
  = (2 * length (concat recording))%nat.
Proof.
  unfold pcm16_bytes, np_values. induction (concat recording) as [ | x l IH ].
  - reflexivity.
  - cbn [map concat]. rewrite length_app, IH. cbn [int16_bytes length]. lia.
Qed.

Lemma np_values_nil (recording : list frame) :
  np_values recording = [] -> concat recording = [].
Proof. unfold np_values. apply map_eq_nil. Qed.

Lemma test_name_plain (t : datetime) :
  plain_name ("test_recording_" +:+ strftime t +:+ ".wav") = true.
Proof. apply (stamped_name_plain "t" "est_recording_" t); reflexivity. Qed.

Lemma test_path (n : string) :
  no_slash n = true ->
  os_path_join "test_recordings" n = "test_recordings" +:+ String "/" n.
Proof.
  intros H. unfold os_path_join. rewrite (no_slash_prefix _ H). reflexivity.
Qed.

(** Once [test_recordings] could be made, it is a directory, and the
    file of a plain name opens under its own path, if it opens. *)
Lemma test_directory_made (s s1 : FileSystem) :
  makedirs "test_recordings" s = inr s1 ->
  stat s1 false ["test_recordings"] = Directory
  /\ "test_recordings" ∈ dirs s1
  /\ files s1 = files s
  /\ match stat s false ["test_recordings"] with
     | Regular => False
     | _ => True
     end
  /\ forall n, stat s1 false ["test_recordings"; n]
               = stat s false ["test_recordings"; n].
Proof.
  pose proof (makedirs_one "test_recordings" false s eq_refl) as Hm.
  cbv iota in Hm. change ("test_recordings" +:+ "") with "test_recordings" in Hm.
  rewrite Hm. clear Hm.
  destruct (stat s false ["test_recordings"]) eqn:E; intros H; inversion H; subst.
  - split; [ exact E | ]. split; [ | auto ].
    unfold stat in E. cbn [climbs forallb String.eqb Ascii.eqb Bool.eqb andb] in E.
    change (path_key false ["test_recordings"]) with "test_recordings" in E.
    destruct (bool_decide ("test_recordings" ∈ dirs s1)) eqn:B.
    + apply bool_decide_eq_true in B. exact B.
    + destruct (files s1 !! "test_recordings"); discriminate E.
  - split; [ apply stat_add_dir_same | ]. split.
    + unfold add_dir. cbn [dirs]. set_solver.
    + split; [ reflexivity | ]. split; [ exact I | ].
      intros n. apply stat_add_dir_child.
Qed.

(** X22.  [test_recording] answers [True] only for a recording it has
    saved: the recording arrived and holds a sample, the rate is positive,
    the directory exists, and under the path it names stands a mono file
    of two bytes per sample at the rate asked for, in which a reader
    counts as many frames as there are samples. *)
Theorem true_means_recording_saved
    (device : option (result string)) (rec : result (list frame))
    (t : datetime) (duration sample_rate : Z) (w w' : World) :
  test_recording wave_Error f32_mul cast_out_of_range
    device rec t duration sample_rate w = (w', Ok true) ->
  exists recording f,
    rec = Ok recording
    /\ np_values recording <> []
    /\ (0 < sample_rate)%Z
    /\ "test_recordings" ∈ dirs (fs w')
    /\ files (fs w')
         !! os_path_join "test_recordings"
              ("test_recording_" +:+ strftime t +:+ ".wav") = Some f
    /\ wav_nchannels f = 1%Z
    /\ wav_sampwidth f = 2%Z
    /\ wav_framerate f = sample_rate
    /\ wav_nframes f = Z.of_nat (length (concat recording)).
Proof.
  pose proof (test_name_plain t) as Hn.
  destruct (plain_name_inv _ Hn) as (Sn & _).
  unfold test_recording, os_makedirs, wave_open.
  rewrite (test_path _ Sn).
  destruct device as [ [ d | r ] | ], rec as [ recording | r' ];
    try destruct r; try destruct r'; try (run; discriminate).
  all: run.
  all: match goal with |- context [makedirs ?n ?s] =>
         destruct (makedirs n s) as [ e | s1 ] eqn:Em; [ run; discriminate | ]
       end.
  all: destruct (test_directory_made _ _ Em) as (Hs & Hin & _).
  all: rewrite (open_wb_in_dir "test_recordings" _ s1 eq_refl Hn Hs).
  all: destruct (stat s1 false ["test_recordings"; _]); try (run; discriminate).
  all: destruct (sample_rate <=? 0)%Z eqn:Er; try (run; discriminate).
  all: destruct (np_max (np_abs (np_values recording))) as [ p | r ] eqn:Ep;
    [ | destruct r; run; discriminate ].
  all: run; intros H; inversion H; subst; clear H.
  all: exists recording; eexists.
  all: split; [ reflexivity | ].
  all: split; [ intros E; rewrite E in Ep; discriminate Ep | ].
  all: split; [ apply Z.leb_gt, Er | ].
  all: unfold write_file; cbn [fs dirs files].
  all: split; [ exact Hin | ].
  all: split; [ apply lookup_insert_eq | ].
  all: cbn [wav_nchannels wav_sampwidth wav_framerate].
  all: repeat (split; [ reflexivity | ]).
  all: unfold wav_nframes; cbn [wav_data wav_nchannels wav_sampwidth].
  all: rewrite pcm16_bytes_length.
  all: replace (Z.of_nat (2 * length (concat recording)))
         with (Z.of_nat (length (concat recording)) * (1 * 2))%Z by lia.
  all: apply Z.div_mul; lia.
Qed.

(** X23.  [test_recording] lets no [Exception] out and fails with a line:
    whatever the device, the recording and the file system do, it
    returns, unless a [KeyboardInterrupt] passes through it, and when it
    answers [False] the last line written is ["Error during recording:
    ..."]. *)
Theorem failed_test_is_reported
    (device : option (result string)) (rec : result (list frame))
    (t : datetime) (duration sample_rate : Z) (w : World) :
  match test_recording wave_Error f32_mul cast_out_of_range
          device rec t duration sample_rate w with
  | (w', Ok true) => True
  | (w', Ok false) =>
      exists e,
        last (output w') = Some (Log ERROR ("Error during recording: " +:+ str e))
  | (w', Raise r) => r = KeyboardInterrupt
  end.
Proof.
  unfold test_recording, try_except.
  match goal with |- context [match ?b w with _ => _ end] =>
    destruct (b w) as [w1 [ [ | ] | [ e | ] ]] eqn:E end.
  - exact I.
  - exfalso. revert E. unfold os_makedirs, wave_open.
    destruct device as [ [ d | r ] | ], rec as [ recording | r' ];
      try destruct r; try destruct r'; try (run; discriminate).
    all: run.
    all: match goal with |- context [makedirs ?n ?s] =>
           destruct (makedirs n s) as [ e | s1 ]; [ run; discriminate | ]
         end.
    all: match goal with |- context [open_wb ?q ?s] =>
           destruct (open_wb q s) as [ e | key ]; [ run; discriminate | ] end.
    all: destruct (sample_rate <=? 0)%Z; try (run; discriminate).
    all: destruct (np_max (np_abs (np_values recording))) as [ p | [ e | ] ];
      run; discriminate.
  - exists e. run. apply last_snoc.
  - reflexivity.
Qed.


(** X25.  When the recording itself fails nothing is written to disk:
    [test_recording] answers [False] and the files and directories are as
    before. *)
Theorem failed_recording_writes_no_file
    (device : option (result string)) (e : exception)
    (t : datetime) (duration sample_rate : Z) (w : World) :
  device <> Some (Raise KeyboardInterrupt) ->
  exists w',
    test_recording wave_Error f32_mul cast_out_of_range
      device (Raise (Exc e)) t duration sample_rate w = (w', Ok false)
    /\ fs w' = fs w.
Proof.
  intros Hd. unfold test_recording.
  destruct device as [ [ d | [ e' | ] ] | ]; try congruence;
    run; eexists; split; reflexivity.
Qed.

End MicTestProofs.

(* ===================================================================== *)
(** * More concrete runs *)
(* ===================================================================== *)

Lemma three_frames_finite : Forall finite (np_values three_frames).
Proof. repeat constructor. Qed.

Lemma three_frames_processed :
  process_audio no_resample three_frames 16000 boot
  = (boot,
     Ok (match snd (process_audio no_resample three_frames 16000 boot) with
         | Ok p => p
         | Raise _ => []
         end)).
Proof. vm_compute. reflexivity. Qed.

Lemma positions_in_range (l : list qfloat) :
  Forall (fun i => (i < length l)%nat) (positions l).
Proof.
  apply Forall_forall. intros i Hi. apply elem_of_seq in Hi. lia.
Qed.

Lemma shot_scores_wide : Forall (fun row => (420 <= length row)%nat) shot_scores.
Proof. constructor; [ apply Nat.leb_le; reflexivity | constructor ]. Qed.

Lemma class_list_long : (420 <= length class_list)%nat.
Proof. apply Nat.leb_le. reflexivity. Qed.

Lemma record_mute_boot :
  record mute DURATION boot = (fst (record mute DURATION boot), Ok []).
Proof.
  rewrite (surjective_pairing (record mute DURATION boot)) at 1.
  f_equal; vm_compute; reflexivity.
Qed.

Lemma class_rows_load :
  PretrainedGunshotDetector_init (inr tt) (inr class_rows) boot
  = (fst (PretrainedGunshotDetector_init (inr tt) (inr class_rows) boot),
     Ok class_list).
Proof.
  rewrite (surjective_pairing
             (PretrainedGunshotDetector_init (inr tt) (inr class_rows) boot)) at 1.
  f_equal; vm_compute; reflexivity.
Qed.

Lemma startup_48k :
  (AudioRecorder_init mic_48k ;; load_classes) boot
  = (fst ((AudioRecorder_init mic_48k ;; load_classes) boot), Ok tt).
Proof.
  rewrite (surjective_pairing ((AudioRecorder_init mic_48k ;; load_classes) boot)) at 1.
  f_equal; vm_compute; reflexivity.
Qed.

Lemma test_recording_three_frames :
  test_recording ValueError exact_mul cast_zero
    None (Ok three_frames) noon 5 44100 boot
  = (fst (test_recording ValueError exact_mul cast_zero
            None (Ok three_frames) noon 5 44100 boot),
     Ok true).
Proof.
  rewrite (surjective_pairing
             (test_recording ValueError exact_mul cast_zero
                None (Ok three_frames) noon 5 44100 boot)) at 1.
  f_equal; vm_compute; reflexivity.
Qed.

Lemma save_three_frames :
  save_audio three_frames "a.wav" boot
  = (fst (save_audio three_frames "a.wav" boot), Ok "recordings/a.wav").
Proof.
  rewrite (surjective_pairing (save_audio three_frames "a.wav" boot)) at 1.
  f_equal; vm_compute; reflexivity.
Qed.

Lemma three_frames_mono : Forall (fun f => length f = 1%nat) three_frames.
Proof. repeat constructor. Qed.

(** Names that are not plain, and a directory that cannot be made: an
    empty name and a name in a directory that does not exist are refused,
    a name that climbs out of [recordings] is written where it leads, and
    nothing is saved where [recordings] is a regular file. *)
Lemma save_audio_on_odd_names :
  snd (save_audio three_frames "" boot) = Raise (Exc (EISDIR "recordings/"))
  /\ snd (save_audio three_frames "sub/x.wav" boot)
     = Raise (Exc (ENOENT "recordings/sub/x.wav"))
  /\ files (fs (fst (save_audio three_frames "../up.wav" boot))) !! "up.wav"
     = Some (gunshot_file three_frames)
  /\ snd (save_audio three_frames "a.wav" blocked)
     = Raise (Exc (EEXIST "recordings/"))
  /\ files (fs (fst (save_audio three_frames "a.wav" blocked)))
     = files (fs blocked).
Proof. repeat split; vm_compute; reflexivity. Qed.

(** Three mono frames saved as [a.wav] in an empty directory. *)
Lemma save_audio_frame_count_witness :
  exists key f,
    files (fs (fst (save_audio three_frames "a.wav" boot))) !! key = Some f
    /\ (forall k, k <> key ->
          files (fs (fst (save_audio three_frames "a.wav" boot))) !! k
          = files (fs boot) !! k)
    /\ (plain_name "a.wav" = true -> key = "recordings/a.wav")
    /\ length (wav_data f) = (4 * length three_frames)%nat
    /\ wav_nframes f = (2 * Z.of_nat (length three_frames))%Z.
Proof.
  apply (save_audio_frame_count three_frames "a.wav" "recordings/a.wav" boot
           (fst (save_audio three_frames "a.wav" boot))).
  - exact three_frames_mono.
  - exact save_three_frames.
Defined.

(** Three frames at 16000 Hz before a model that scores 0.7. *)
Lemma detect_returns_the_gunshot_score_witness :
  exists w' probs p,
    detect shot_model no_resample positions class_list three_frames 16000 boot
    = (w', Ok p)
    /\ select_columns shot_scores gunshot_classes = Ok probs
    /\ np_max (concat probs) = Ok p.
Proof.
  eapply (detect_returns_the_gunshot_score shot_model no_resample positions
            class_list three_frames 16000 boot boot _ shot_scores).
  - exact three_frames_processed.
  - reflexivity.
  - discriminate.
  - exact shot_scores_wide.
  - exact positions_in_range.
  - exact class_list_long.
Defined.

(** The class map of 521 rows. *)
Lemma built_wrapper_knows_its_classes_witness :
  (inr tt : exception + unit) = inr tt
  /\ (exists rows,
        (inr class_rows : exception + list (list string)) = inr rows
        /\ Forall2 (fun row n => row !! 2%nat = Some n) rows class_list)
  /\ (420 <= length class_list)%nat.
Proof.
  apply (built_wrapper_knows_its_classes (inr tt) (inr class_rows) boot
           (fst (PretrainedGunshotDetector_init (inr tt) (inr class_rows) boot))
           class_list).
  exact class_rows_load.
Defined.

(** A model that cannot be fetched. *)
Lemma failed_construction_is_logged_and_raised_witness :
  exists e out,
    Exc (OSError "no network") = Exc e
    /\ fst (PretrainedGunshotDetector_init (inl (OSError "no network"))
              (inr class_rows) boot)
       = logged (out ++ [Log ERROR ("Error initializing model: " +:+ str e)]) boot.
Proof.
  apply (failed_construction_is_logged_and_raised
           (inl (OSError "no network")) (inr class_rows) boot).
  reflexivity.
Defined.

(** A class map of one row. *)
Lemma short_class_map_is_refused_witness :
  exists w', PretrainedGunshotDetector_init (inr tt) (inr one_row) boot
             = (w', Raise (Exc (IndexError "list index out of range"))).
Proof.
  apply (short_class_map_is_refused one_row ["Speech"] boot).
  - reflexivity.
  - cbn. lia.
Defined.

(** The samples 0.5, -0.25 and 0.125. *)
Lemma processed_audio_is_normalised_witness :
  exists processed,
    process_audio no_resample three_frames 16000 boot = (boot, Ok processed)
    /\ length processed = length (np_values three_frames)
    /\ Forall unit_range processed.
Proof.
  apply (processed_audio_is_normalised no_resample three_frames boot).
  - exact three_frames_finite.
  - exact three_frames_have_samples.
Defined.

(** A driver that delivers nothing. *)
Lemma empty_window_skips_the_classifier_witness :
  iteration certain {| driver := mute; now := noon |} boot
  = (backoff (zero_size "minimum") (fst (record mute DURATION boot)), Ok tt).
Proof.
  apply (empty_window_skips_the_classifier certain
           {| driver := mute; now := noon |} boot
           (fst (record mute DURATION boot)) []).
  - exact record_mute_boot.
  - reflexivity.
Defined.

(** A microphone at 48 kHz, the class map of 521 rows, then a round that
    records and a round whose stream does not start. *)
Lemma main_returns_once_started_witness :
  exists w' s,
    main certain load_classes (print_all_classes class_list) mic_48k
         [ {| driver := fine; now := noon |};
           {| driver := stuck_start; now := noon |} ] boot
    = (w', Ok s).
Proof.
  apply (main_returns_once_started certain load_classes class_list mic_48k
           [ {| driver := fine; now := noon |};
             {| driver := stuck_start; now := noon |} ] boot
           (fst ((AudioRecorder_init mic_48k ;; load_classes) boot))).
  exact startup_48k.
Defined.

Lemma recorded_window_ends_normally_witness :
  exists w2 p,
    detect shot_model no_resample positions class_list
           three_frames SAMPLE_RATE (fst (record fine DURATION boot))
    = (w2, Ok p)
    /\ fs w2 = fs (fst (record fine DURATION boot))
    /\ (accepts (fs (fst (record fine DURATION boot))) "recordings"
           ("gunshot_" +:+ strftime noon +:+ ".wav") = true ->
        snd (window (detect shot_model no_resample positions class_list)
               {| driver := fine; now := noon |} boot) = Ok tt)
    /\ (fgt p (Fin (2 # 10)) = false ->
        snd (window (detect shot_model no_resample positions class_list)
               {| driver := fine; now := noon |} boot) = Ok tt)
    /\ (forall r,
          snd (window (detect shot_model no_resample positions class_list)
                 {| driver := fine; now := noon |} boot) = Raise r ->
          (exists e, r = Exc e)
          /\ fgt p (Fin (2 # 10)) = true
          /\ accepts (fs (fst (record fine DURATION boot))) "recordings"
                ("gunshot_" +:+ strftime noon +:+ ".wav") = false).
Proof.
  apply (recorded_window_ends_normally shot_model no_resample positions
           class_list {| driver := fine; now := noon |} boot
           (fst (record fine DURATION boot)) three_frames).
  - exact record_fine_boot.
  - exact three_frames_have_samples.
Defined.

Lemma loop_leaves_no_other_stream_running_witness :
  one_running
    (fst (monitoring_loop (detect shot_model no_resample positions class_list)
            [ {| driver := fine; now := noon |};
              {| driver := stuck_start; now := noon |} ] boot)).
Proof.
  apply (loop_leaves_no_other_stream_running shot_model no_resample positions
           class_list).
  exact one_running_boot.
Defined.

(** Five seconds at 44100 Hz that deliver three frames. *)
Lemma true_means_recording_saved_witness :
  exists recording f,
    Ok three_frames = Ok recording
    /\ np_values recording <> []
    /\ (0 < 44100)%Z
    /\ "test_recordings"
       ∈ dirs (fs (fst (test_recording ValueError exact_mul cast_zero
                          None (Ok three_frames) noon 5 44100 boot)))
    /\ files (fs (fst (test_recording ValueError exact_mul cast_zero
                         None (Ok three_frames) noon 5 44100 boot)))
         !! os_path_join "test_recordings"
              ("test_recording_" +:+ strftime noon +:+ ".wav") = Some f
    /\ wav_nchannels f = 1%Z
    /\ wav_sampwidth f = 2%Z
    /\ wav_framerate f = 44100%Z
    /\ wav_nframes f = Z.of_nat (length (concat recording)).
Proof.
  apply (true_means_recording_saved ValueError exact_mul cast_zero
           None (Ok three_frames) noon 5 44100 boot).
  exact test_recording_three_frames.
Defined.


(** A device that cannot be opened. *)
Lemma failed_recording_writes_no_file_witness :
  exists w',
    test_recording ValueError exact_mul cast_zero
      None (Raise (Exc (PortAudioError "Error opening InputStream")))
      noon 5 44100 boot = (w', Ok false)
    /\ fs w' = fs boot.
Proof.
  apply (failed_recording_writes_no_file ValueError exact_mul cast_zero
           None (PortAudioError "Error opening InputStream") noon 5 44100 boot).
  discriminate.
Defined.
